(** * LdapService (src/services/ldap/index.js): a shallow embedding

    The service keeps a registry [this.clients] of LDAP client handles keyed
    by the identifier of an LDAP configuration, binds new handles through
    [ldapjs] and runs searches over them.  All of its operations return
    Promises.  The embedding threads the service registry and the observable
    part of the outside world (handles created, binds and searches issued)
    through explicit state, and represents the Promise a method returns by
    the state that Promise finally reaches once every callback the library
    owes has run. *)

From Stdlib Require Import ZArith.
From stdpp Require Import base option gmap strings list.

Local Open Scope Z_scope.
Local Open Scope string_scope.

(** ** JavaScript values used by the service *)

(** A property that may be absent reads [undefined]: [None]. *)
Definition JsString := option string.

(** Truthiness of a string-or-undefined value: [undefined] and the empty
    string are falsy. *)
Definition truthy (v : JsString) : bool :=
  match v with
  | Some s => negb (String.eqb s "")
  | None => false
  end.

(** String conversion, as done by a template literal and by a computed
    property key. *)
Definition to_str (v : JsString) : string := default "undefined" v.

(** Values a Promise is rejected with, or that are thrown. *)
Inductive JsError :=
| ErrString (s : string)          (* reject('...'), Promise.reject('...') *)
| NotAuthenticated (msg : string) (* new errors.NotAuthenticated(msg) *)
| TypeError (msg : string)        (* raised by the runtime *)
| LdapError (msg : string).       (* an error object handed over by ldapjs *)

(** The error taxonomy of the specification, read off the values the code
    rejects with. *)
Inductive ErrorKind :=
| ConfigurationError | AuthenticationError | NotFoundError | DirectoryError
| RuntimeError.

Definition classify (e : JsError) : ErrorKind :=
  match e with
  | ErrString s =>
      if String.eqb s "Invalid URL in config object." then ConfigurationError
      else if String.eqb s "Invalid config object" then ConfigurationError
      else if String.eqb s "Object not found" then NotFoundError
      else DirectoryError
  | NotAuthenticated _ => AuthenticationError
  | TypeError _ => RuntimeError
  | LdapError _ => DirectoryError
  end.

(** ** Data model *)

Record LdapConfig := {
  _id : JsString;
  url : JsString;
  rootPath : JsString;
  searchUser : JsString;
  searchUserPassword : JsString;
}.

Record System := { ldapConfig : option LdapConfig }.

(** An entry's [object]: an attribute mapping the service never inspects. *)
Definition LdapObject := list (string * string).

Record SearchOptions := {
  filter : JsString;
  scope : string;
  attributes : list string;
}.

(** A client object made by [ldap.createClient]; [handle] is its identity. *)
Record LDAPClient := {
  handle : nat;
  client_url : JsString;
}.

Module Team.
Record t := { _id : JsString; name : JsString }.
End Team.

Module LDAPGroup.
Record t := { name : string; description : JsString }.
End LDAPGroup.

(** ** The ldapjs library and the server behind it *)

Inductive BindResult :=
| BindOk                 (* callback(null) *)
| BindErr (err : string) (* callback(err) *)
| BindNoCallback.        (* the callback is never invoked *)

(** Events of the search response emitter, in the order they fire. *)
Inductive ResEvent :=
| SearchEntry (object : LdapObject)
| End (status : Z)
| Error (err : string).

Inductive SearchResponse :=
| SearchErr (err : string)          (* callback(err) *)
| SearchRes (events : list ResEvent). (* callback(null, res) *)

Record LdapLib := {
  (* [Some msg]: ldap.createClient({url}) throws *)
  createClient_throws : JsString -> option string;
  (* the outcome of client.bind(username, password, cb) on a client of the given url *)
  bind_result : JsString -> JsString -> JsString -> BindResult;
  (* the outcome of client.search(searchString, options, cb) *)
  search_result : LDAPClient -> string -> SearchOptions -> SearchResponse;
}.

(** ** State *)

Record BindCall := {
  bind_client : LDAPClient;
  bind_username : JsString;
  bind_password : JsString;
}.

Record SearchCall := {
  search_client : LDAPClient;
  search_base : string;
  search_options : SearchOptions;
}.

Record State := {
  clients : gmap string LDAPClient; (* this.clients *)
  next_handle : nat;                (* clients created so far *)
  connected : gset nat;             (* handles whose [connected] reads true *)
  bind_log : list BindCall;         (* every client.bind issued, oldest first *)
  search_log : list SearchCall;     (* every client.search issued, oldest first *)
}.

(** The state right after [constructor()]. *)
Definition init : State :=
  {| clients := ∅; next_handle := 0; connected := ∅;
     bind_log := []; search_log := [] |}.

Definition is_connected (st : State) (client : LDAPClient) : bool :=
  bool_decide (handle client ∈ connected st).

Definition new_client (u : JsString) (st : State) : LDAPClient * State :=
  ({| handle := next_handle st; client_url := u |},
   {| clients := clients st; next_handle := S (next_handle st);
      connected := connected st; bind_log := bind_log st;
      search_log := search_log st |}).

Definition log_bind (b : BindCall) (st : State) : State :=
  {| clients := clients st; next_handle := next_handle st;
     connected := connected st; bind_log := bind_log st ++ [b];
     search_log := search_log st |}.

Definition log_search (s : SearchCall) (st : State) : State :=
  {| clients := clients st; next_handle := next_handle st;
     connected := connected st; bind_log := bind_log st;
     search_log := search_log st ++ [s] |}.

Definition mark_connected (client : LDAPClient) (st : State) : State :=
  {| clients := clients st; next_handle := next_handle st;
     connected := {[ handle client ]} ∪ connected st;
     bind_log := bind_log st; search_log := search_log st |}.

(** The environment closes a connection: [connected] reads false from now on. *)
Definition drop_connection (client : LDAPClient) (st : State) : State :=
  {| clients := clients st; next_handle := next_handle st;
     connected := connected st ∖ {[ handle client ]};
     bind_log := bind_log st; search_log := search_log st |}.

(** ** Promises *)

(** What a call comes to: the final state of the Promise it returned, or
    [Thrown] when the call raised before returning a Promise. *)
Inductive Outcome (A : Type) :=
| Resolved (a : A)
| Rejected (e : JsError)
| Pending
| Thrown (e : JsError).
Arguments Resolved {A} a.
Arguments Rejected {A} e.
Arguments Pending {A}.
Arguments Thrown {A} e.

Definition Op (A : Type) := State -> Outcome A * State.

(** [resolve]/[reject] inside an executor: only the first call settles. *)
Definition settle {A} (p v : Outcome A) : Outcome A :=
  match p with
  | Pending => v
  | _ => p
  end.

(** [p.then(f)]: [f] runs on fulfilment; an exception raised by [f] rejects. *)
Definition then_ {A B} (p : Op A) (f : A -> Op B) : Op B := fun st =>
  match p st with
  | (Resolved a, st1) =>
      match f a st1 with
      | (Thrown e, st2) => (Rejected e, st2)
      | r => r
      end
  | (Rejected e, st1) => (Rejected e, st1)
  | (Pending, st1) => (Pending, st1)
  | (Thrown e, st1) => (Thrown e, st1)
  end.

(** ** The service and its collaborators *)

Section Service.

(** The strategy module (./strategies) is a collaborator of the service:
    users, schools and the result of a group mutation are left abstract. *)
Context {User School Result : Type}.

Record LDAPStrategy := {
  getSchoolsQuery : string * SearchOptions;
  getUsersQuery : School -> string * SearchOptions;
  getClassesQuery : School -> string * SearchOptions;
  addUserToGroup : User -> LDAPGroup.t -> Result;
  removeUserFromGroup : User -> LDAPGroup.t -> Result;
}.

Variable lib : LdapLib.
Variable getLDAPStrategy : option LdapConfig -> LDAPStrategy.

(** ** The service *)

(** [this.clients[config._id] = client]; the property key is the string
    conversion of the identifier. *)
Definition _addClient (config : LdapConfig) (client : LDAPClient)
    (st : State) : State :=
  {| clients := <[to_str (_id config) := client]> (clients st);
     next_handle := next_handle st; connected := connected st;
     bind_log := bind_log st; search_log := search_log st |}.

(** [username || `uid=${config.searchUser},cn=users,${config.rootPath}`] *)
Definition username_or_default (config : option LdapConfig)
    (username : JsString) : JsError + JsString :=
  if truthy username then inr username
  else match config with
       | None => inl (TypeError "Cannot read property 'searchUser' of undefined")
       | Some c =>
           inr (Some ("uid=" +:+ to_str (searchUser c) +:+ ",cn=users,"
                        +:+ to_str (rootPath c)))
       end.

(** [password || config.searchUserPassword] *)
Definition password_or_default (config : option LdapConfig)
    (password : JsString) : JsError + JsString :=
  if truthy password then inr password
  else match config with
       | None => inl (TypeError "Cannot read property 'searchUserPassword' of undefined")
       | Some c => inr (searchUserPassword c)
       end.

(** [config && config.url] *)
Definition has_url (config : option LdapConfig) : bool :=
  match config with
  | Some c => truthy (url c)
  | None => false
  end.

(** [config && config._id] *)
Definition has_id (config : option LdapConfig) : bool :=
  match config with
  | Some c => truthy (_id c)
  | None => false
  end.

Definition _connect (config : option LdapConfig)
    (username password : JsString) : Op LDAPClient := fun st =>
  match username_or_default config username with
  | inl e => (Thrown e, st)
  | inr username =>
  match password_or_default config password with
  | inl e => (Thrown e, st)
  | inr password =>
    (* the executor: reject does not leave it *)
    let p0 : Outcome LDAPClient :=
      if negb (has_url config)
      then Rejected (ErrString "Invalid URL in config object.")
      else Pending in
    match config with
    | None =>
        (settle p0 (Rejected (TypeError "Cannot read property 'url' of undefined")), st)
    | Some c =>
        match createClient_throws lib (url c) with
        | Some msg => (settle p0 (Rejected (LdapError msg)), st)
        | None =>
            let (client, st1) := new_client (url c) st in
            let st2 :=
              log_bind {| bind_client := client; bind_username := username;
                          bind_password := password |} st1 in
            match bind_result lib (url c) username password with
            | BindErr _ =>
                (settle p0 (Rejected (NotAuthenticated "Wrong credentials")), st2)
            | BindOk => (settle p0 (Resolved client), mark_connected client st2)
            | BindNoCallback => (p0, st2)
            end
        end
    end
  end
  end.

Definition _getClient (config : option LdapConfig) : Op LDAPClient := fun st =>
  match config with
  | None => (Thrown (TypeError "Cannot read property '_id' of undefined"), st)
  | Some c =>
      let connect : Outcome LDAPClient * State :=
        then_ (_connect config None None)
              (fun client st' => (Resolved client, _addClient c client st')) st in
      match clients st !! to_str (_id c) with
      | Some client =>
          if is_connected st client then (Resolved client, st) else connect
      | None => connect
      end
  end.

(** The executor calls [unbind] on the Promise [_getClient] returns, which
    has no such method: the call raises, and an exception inside an
    executor rejects the Promise unless it is settled already. *)
Definition _disconnect (config : option LdapConfig) : Op unit := fun st =>
  let p0 : Outcome unit :=
    if negb (has_id config)
    then Rejected (ErrString "Invalid config object")
    else Pending in
  match _getClient config st with
  | (Thrown e, st1) => (settle p0 (Rejected e), st1)
  | (_, st1) =>
      (settle p0 (Rejected (TypeError "this._getClient(...).unbind is not a function")), st1)
  end.

(** The handlers installed on [res], run over the events in order;
    [objects] is the array being filled, [p] the Promise so far.  [resolve]
    is given the array itself; the value recorded here is its content at
    that moment, which is what the caller sees unless entries arrive after
    [end]. *)
Fixpoint on_events (events : list ResEvent) (objects : list LdapObject)
    (p : Outcome (list LdapObject)) : Outcome (list LdapObject) :=
  match events with
  | [] => p
  | SearchEntry object :: rest => on_events rest (objects ++ [object]) p
  | End status :: rest =>
      let p1 := if Z.eqb status 0 then settle p (Resolved objects) else p in
      on_events rest objects
        (settle p1 (Rejected (ErrString "LDAP result code != 0")))
  | Error err :: rest =>
      on_events rest objects (settle p (Rejected (LdapError err)))
  end.

(** The inner Promise of [searchCollection]. *)
Definition search_on (client : LDAPClient) (searchString : string)
    (options : SearchOptions) : Op (list LdapObject) := fun st =>
  let st1 :=
    log_search {| search_client := client; search_base := searchString;
                  search_options := options |} st in
  match search_result lib client searchString options with
  | SearchErr err => (Rejected (LdapError err), st1)
  | SearchRes events => (on_events events [] Pending, st1)
  end.

Definition searchCollection (config : option LdapConfig)
    (searchString : string) (options : SearchOptions) : Op (list LdapObject) :=
  then_ (_getClient config)
        (fun client => search_on client searchString options).

Definition searchObject (config : option LdapConfig)
    (searchString : string) (options : SearchOptions) : Op LdapObject :=
  then_ (searchCollection config searchString options)
        (fun objects st =>
           match objects with
           | object :: _ => (Resolved object, st)
           | [] => (Rejected (ErrString "Object not found"), st)
           end).

Definition authenticate (system : System)
    (qualifiedUsername password : string) : Op LdapObject :=
  let config := ldapConfig system in
  then_ (_connect config (Some qualifiedUsername) (Some password))
        (fun _ =>
           let options :=
             {| filter := None; scope := "sub"; attributes := [] |} in
           let searchString := qualifiedUsername in
           searchObject config searchString options).

Definition getSchools (config : option LdapConfig) : Op (list LdapObject) :=
  let (searchString, options) := getSchoolsQuery (getLDAPStrategy config) in
  searchCollection config searchString options.

Definition getUsers (config : option LdapConfig) (school : School)
    : Op (list LdapObject) :=
  let (searchString, options) := getUsersQuery (getLDAPStrategy config) school in
  searchCollection config searchString options.

Definition getClasses (config : option LdapConfig) (school : School)
    : Op (list LdapObject) :=
  let (searchString, options) := getClassesQuery (getLDAPStrategy config) school in
  searchCollection config searchString options.

Definition _teamToGroup (team : Team.t) : LDAPGroup.t :=
  {| LDAPGroup.name := "schulcloud-" +:+ to_str (Team._id team);
     LDAPGroup.description := Team.name team |}.

Definition addUserToTeam (config : option LdapConfig) (user : User)
    (team : Team.t) : Result :=
  let group := _teamToGroup team in
  addUserToGroup (getLDAPStrategy config) user group.

Definition removeUserFromTeam (config : option LdapConfig) (user : User)
    (team : Team.t) : Result :=
  let group := _teamToGroup team in
  removeUserFromGroup (getLDAPStrategy config) user group.

End Service.

(** ** A concrete directory *)

Module Example.

(** The configuration of the specification's example. *)
Definition s1 : LdapConfig :=
  {| _id := Some "s1"; url := Some "ldap://host";
     rootPath := Some "dc=school"; searchUser := Some "admin";
     searchUserPassword := Some "p" |}.

Definition system : System := {| ldapConfig := Some s1 |}.

Definition alice : LdapObject := [("uid", "alice")].
Definition bob : LdapObject := [("uid", "bob")].
Definition carol : LdapObject := [("uid", "carol")].

(** A server that knows the service account and the user alice; a search
    based at alice's entry finds it, any other search finds three entries,
    and both end with result code 0. *)
Definition server : LdapLib :=
  {| createClient_throws := fun _ => None;
     bind_result := fun _ username password =>
       match username, password with
       | Some "uid=admin,cn=users,dc=school", Some "p" => BindOk
       | Some "uid=alice,cn=users,dc=school", Some "secret" => BindOk
       | _, _ => BindErr "InvalidCredentialsError"
       end;
     search_result := fun _ searchString _ =>
       if String.eqb searchString "uid=alice,cn=users,dc=school"
       then SearchRes [SearchEntry alice; End 0]
       else SearchRes [SearchEntry alice; SearchEntry bob; SearchEntry carol; End 0] |}.

(** The same server answering with result code 1 after the entries. *)
Definition failing_server : LdapLib :=
  {| createClient_throws := createClient_throws server;
     bind_result := bind_result server;
     search_result := fun _ _ _ =>
       SearchRes [SearchEntry alice; SearchEntry bob; SearchEntry carol; End 1] |}.

(** The same server finding nothing. *)
Definition empty_server : LdapLib :=
  {| createClient_throws := createClient_throws server;
     bind_result := bind_result server;
     search_result := fun _ _ _ => SearchRes [End 0] |}.

Definition any_options : SearchOptions :=
  {| filter := Some "(objectClass=person)"; scope := "sub"; attributes := [] |}.

Definition team : Team.t :=
  {| Team._id := Some "5b7de0021a3a07c20a1c165e"; Team.name := Some "Chemie AG" |}.

(** The state after a first successful [_getClient] on [s1]. *)
Definition connected_state : State :=
  snd (_getClient server (Some s1) init).

End Example.

(** ** Auxiliary notions used in the statements *)

(** The handle [_getClient] would reuse: cached under the configuration's
    key and reporting connected. *)
Definition cached_connected (st : State) (config : LdapConfig)
    : option LDAPClient :=
  match clients st !! to_str (_id config) with
  | Some client => if is_connected st client then Some client else None
  | None => None
  end.

(** The bind [_connect(config, username, password)] issues on [client]:
    a falsy credential gives way to the configured one. *)
Definition bind_as (config : LdapConfig) (client : LDAPClient)
    (username password : JsString) : BindCall :=
  {| bind_client := client;
     bind_username :=
       if truthy username then username
       else Some ("uid=" +:+ to_str (searchUser config) +:+ ",cn=users,"
                    +:+ to_str (rootPath config));
     bind_password :=
       if truthy password then password else searchUserPassword config |}.

(** The service-account bind of [_connect(config)]. *)
Definition service_bind (config : LdapConfig) (client : LDAPClient) : BindCall :=
  bind_as config client None None.

(** The options of the self-lookup of [authenticate]. *)
Definition self_lookup_options : SearchOptions :=
  {| filter := None; scope := "sub"; attributes := [] |}.

(** Every cached handle was made by [ldap.createClient] before. *)
Definition cache_allocated (st : State) : Prop :=
  forall k client, clients st !! k = Some client ->
    (handle client < next_handle st)%nat.

(** The registry without the entry of [config]'s own key: the part an
    operation on [config] has no business with. *)
Definition elsewhere (config : option LdapConfig)
    (registry : gmap string LDAPClient) : gmap string LDAPClient :=
  match config with
  | Some c => delete (to_str (_id c)) registry
  | None => registry
  end.

(** The states the service can be in: those the constructor and any run of
    operations, with connections dropping in between, lead to. *)
Inductive reachable (lib : LdapLib) : State -> Prop :=
| reach_init : reachable lib init
| reach_getClient config st :
    reachable lib st -> reachable lib (snd (_getClient lib config st))
| reach_disconnect config st :
    reachable lib st -> reachable lib (snd (_disconnect lib config st))
| reach_searchCollection config searchString options st :
    reachable lib st ->
    reachable lib (snd (searchCollection lib config searchString options st))
| reach_searchObject config searchString options st :
    reachable lib st ->
    reachable lib (snd (searchObject lib config searchString options st))
| reach_authenticate system username password st :
    reachable lib st ->
    reachable lib (snd (authenticate lib system username password st))
| reach_drop client st :
    reachable lib st -> reachable lib (drop_connection client st).

(** ** Notions used for the whole service *)

Definition is_resolved {A} (o : Outcome A) : bool :=
  match o with
  | Resolved _ => true
  | _ => false
  end.

(** [st'] keeps what [st] has: every identifier of the registry, every
    connection that reports connected, every client, bind and search. *)
Record extends (st st' : State) : Prop := {
  ext_registry : dom (clients st) ⊆ dom (clients st');
  ext_connected : connected st ⊆ connected st';
  ext_handles : (next_handle st <= next_handle st')%nat;
  ext_binds : bind_log st `prefix_of` bind_log st';
  ext_searches : search_log st `prefix_of` search_log st';
}.


(** The clients created so far are the clients bound so far, one bind
    each, in the order of creation. *)
Definition one_bind_per_client (st : State) : Prop :=
  (fun b => handle (bind_client b)) <$> bind_log st = seq 0 (next_handle st).

(** A directory like [Example.server] whose searches all get the response
    [response]. *)
Module Script.

Definition server (response : SearchResponse) : LdapLib :=
  {| createClient_throws := createClient_throws Example.server;
     bind_result := bind_result Example.server;
     search_result := fun _ _ _ => response |}.

Definition client0 : LDAPClient :=
  {| handle := 0%nat; client_url := Some "ldap://host" |}.

(** [Example.connected_state] after its connection dropped. *)
Definition stale_state : State :=
  drop_connection client0 Example.connected_state.

(** A configuration without identifier. *)
Definition anonymous : LdapConfig :=
  {| _id := None; url := Some "ldap://host";
     rootPath := Some "dc=school"; searchUser := Some "admin";
     searchUserPassword := Some "p" |}.

(** A configuration without URL. *)
Definition nowhere : LdapConfig :=
  {| _id := Some "s2"; url := None;
     rootPath := Some "dc=school"; searchUser := Some "admin";
     searchUserPassword := Some "p" |}.

(** A configuration whose service account the server does not know. *)
Definition stranger : LdapConfig :=
  {| _id := Some "s3"; url := Some "ldap://host";
     rootPath := Some "dc=school"; searchUser := Some "nobody";
     searchUserPassword := Some "p" |}.

(** A strategy with fixed queries, for a service whose users, schools and
    group results carry no data. *)
Definition strategy (config : option LdapConfig) : @LDAPStrategy unit unit unit :=
  {| getSchoolsQuery := ("cn=schools,dc=school", Example.any_options);
     getUsersQuery := fun _ => ("cn=users,dc=school", Example.any_options);
     getClassesQuery := fun _ => ("cn=classes,dc=school", Example.any_options);
     addUserToGroup := fun _ _ => tt;
     removeUserFromGroup := fun _ _ => tt |}.

Definition alice_dn : string := "uid=alice,cn=users,dc=school".

(** The state after alice has logged in on a fresh service. *)
Definition logged_in_state : State :=
  snd (authenticate Example.server Example.system alice_dn "secret" init).

End Script.

(** * Request hooks

    Hooks take the hook object of a request and hand it on, changed or not,
    or raise.  A hook that returns a Promise is represented by what the
    Promise comes to. *)

(** What a hook raises or rejects with. *)
Inductive HookError :=
| PlainError (msg : string)      (* new Error(msg) *)
| BadRequest (msg : string)      (* new errors.BadRequest(msg) *)
| NotFound (msg : string)        (* new errors.NotFound(msg) *)
| LockConflict (msg : string)    (* new errors.Conflict(msg) *)
| TeamsNotAllowed                (* Conflict: "Teamabgaben sind nicht erlaubt!" *)
| TeamTooLarge (allowed : Z)     (* Conflict: the team is larger than [allowed] *)
| HookTypeError (msg : string)   (* raised by the runtime *)
| ServiceError (msg : string).   (* a rejection of a service or model call *)

(** [a || b] on strings that may be absent. *)
Definition or_else (a b : JsString) : JsString :=
  if truthy a then a else b.

(** ** WOPI hooks (src/unnamed/part_000) *)

Module Wopi.

Record Params := {
  headers : option (gmap string string); (* hook.params.headers *)
  query : option (gmap string string);   (* hook.params.query *)
  wopiAction : JsString;
  fileId : JsString;
}.

(** The part of a file document the hooks read: its lock, as a string. *)
Record File := { lockId : JsString }.

Definition set_headers (h : gmap string string) (params : Params) : Params :=
  {| headers := Some h; query := query params;
     wopiAction := wopiAction params; fileId := fileId params |}.

Definition set_wopiAction (a : JsString) (params : Params) : Params :=
  {| headers := headers params; query := query params;
     wopiAction := a; fileId := fileId params |}.

Definition concerningActions : list string :=
  ["LOCK"; "PUT"; "REFRESH_LOCK"; "UNLOCK"].

(** [concerningActions.includes(wopiAction)] *)
Definition concerning (wopiAction : JsString) : bool :=
  match wopiAction with
  | Some a => bool_decide (a ∈ concerningActions)
  | None => false
  end.

(** [fileLockId !== lockId], a string against a header that may be absent. *)
Definition differs (fileLockId : string) (lockId : JsString) : bool :=
  match lockId with
  | Some l => negb (String.eqb fileLockId l)
  | None => true
  end.

Section Hooks.

(** [auth.hooks.authenticate('jwt')] and [FileModel.findOne({_id})] are
    collaborators of the hooks. *)
Context {Authenticated : Type}.
Variable authenticate_jwt : Params -> Authenticated.
Variable findOne : JsString -> HookError + option File.

Definition wopiAuthentication (params : Params) : HookError + Authenticated :=
  let h := default ∅ (headers params) in
  let jwt :=
    or_else (h !! "authorization") (default ∅ (query params) !! "access_token") in
  match jwt with
  | Some token =>
      if truthy jwt
      then inr (authenticate_jwt (set_headers (<["authorization" := token]> h) params))
      else inl (PlainError "access_token is missing!")
  | None => inl (PlainError "access_token is missing!")
  end.

Definition retrieveWopiOverrideHeader (params : Params) : HookError + Params :=
  let h := default ∅ (headers params) in
  if negb (truthy (h !! "x-wopi-override"))
  then inl (BadRequest "X-WOPI-Override header was not provided or was empty!")
  else inr (set_wopiAction (h !! "x-wopi-override") (set_headers h params)).

Definition checkLockHeader (params : Params) : HookError + Params :=
  if negb (concerning (wopiAction params)) then inr params
  else
    match headers params with
    | None => inl (HookTypeError "Cannot read property 'x-wopi-lock' of undefined")
    | Some h =>
        let lockId := h !! "x-wopi-lock" in
        match findOne (fileId params) with
        | inl e => inl e
        | inr None => inl (NotFound "The requested file was not found!")
        | inr (Some file) =>
            let fileLockId := default "" (or_else (Wopi.lockId file) (Some "")) in
            if truthy (Some fileLockId) && differs fileLockId lockId
            then inl (LockConflict "Lock mismatch: The given file could be locked by another wopi-client!")
            else inr params
        end
    end.

(** The hooks of [before.create], [update], [patch] and [remove], after
    those of [before.all]: each gets the hook the one before handed on. *)
Definition before_edit (params : Params) : HookError + Params :=
  match retrieveWopiOverrideHeader params with
  | inl e => inl e
  | inr params' => checkLockHeader params'
  end.

End Hooks.

(** A store with one file, [f1], locked with [lock-1], and requests on that
    file that carry a token in the query. *)
Definition locked_file : File := {| lockId := Some "lock-1" |}.

Definition files (fileId : JsString) : HookError + option File :=
  match fileId with
  | Some "f1" => inr (Some locked_file)
  | _ => inr None
  end.

Definition request (hdrs : list (string * string)) : Params :=
  {| headers := Some (list_to_map hdrs);
     query := Some {[ "access_token" := "query-token" ]};
     wopiAction := None; fileId := Some "f1" |}.

End Wopi.

(** ** Submission hooks (src/services/homework/hooks/submissions.js) *)

Module Submissions.

(** [hook.data.teamMembers]: absent, one identifier, or an array of
    identifiers. *)
Inductive Members :=
| NoMembers
| OneMember (member : string)
| MemberList (members : list string).

Record Data := {
  grade : option Z;          (* an integer grade, when there is one *)
  gradeComment : JsString;
  teamMembers : Members;
  studentId : JsString;
  homeworkId : JsString;
}.

(** The hook object: its data and [hook.params.account.userId.toString()]. *)
Record Hook := { data : Data; userId : string }.

Record Homework := {
  teamSubmissions : bool;
  maxCoWorkers_allowed : option Z; (* homework.maxCoWorkers *)
}.

Definition set_teamMembers (m : Members) (hook : Hook) : Hook :=
  {| data := {| grade := grade (data hook); gradeComment := gradeComment (data hook);
                teamMembers := m; studentId := studentId (data hook);
                homeworkId := homeworkId (data hook) |};
     userId := userId hook |}.

Definition set_studentId (s : string) (hook : Hook) : Hook :=
  {| data := {| grade := grade (data hook); gradeComment := gradeComment (data hook);
                teamMembers := teamMembers (data hook); studentId := Some s;
                homeworkId := homeworkId (data hook) |};
     userId := userId hook |}.

(** Truthiness of a number that may be absent. *)
Definition truthy_number (n : option Z) : bool :=
  match n with
  | Some z => negb (Z.eqb z 0)
  | None => false
  end.

Definition truthy_members (m : Members) : bool :=
  match m with
  | NoMembers => false
  | OneMember member => truthy (Some member)
  | MemberList _ => true
  end.

(** [hook.data.grade || hook.data.gradeComment] *)
Definition grading (d : Data) : bool :=
  truthy_number (grade d) || truthy (gradeComment d).

(** [teamMembers.length], on an array or on a string (of ASCII
    characters, where bytes and code units agree). *)
Definition members_length (m : Members) : Z :=
  match m with
  | NoMembers => 0
  | OneMember member => Z.of_nat (String.length member)
  | MemberList members => Z.of_nat (length members)
  end.

Definition setCoWorkers (hook : Hook) : Hook :=
  if negb (truthy_members (teamMembers (data hook)) || grading (data hook))
  then set_teamMembers (MemberList [userId hook]) hook
  else hook.

(** The [console.log] the hook starts with is left out. *)
Definition normalizeCoWorkers (hook : Hook) : Hook :=
  if negb (grading (data hook)) then
    let members :=
      match teamMembers (data hook) with
      | MemberList members => members
      | OneMember member => if truthy (Some member) then [member] else []
      | NoMembers => []
      end in
    match members with
    | [] => set_teamMembers (MemberList [userId hook]) hook
    | first :: _ =>
        let hook1 := set_teamMembers (MemberList members) hook in
        if bool_decide (userId hook ∈ members)
        then set_studentId (userId hook) hook1
        else set_studentId first hook1
    end
  else hook.

Section Hooks.

(** [hook.app.service('/homework').get(homeworkId, ...)] *)
Variable get_homework : JsString -> HookError + Homework.

Definition maxCoWorkers (hook : Hook) : HookError + Hook :=
  if truthy (homeworkId (data hook)) && truthy_members (teamMembers (data hook))
  then
    match get_homework (homeworkId (data hook)) with
    | inl e => inl e
    | inr homework =>
        let size := members_length (teamMembers (data hook)) in
        if Z.ltb 1 size && negb (teamSubmissions homework)
        then inl TeamsNotAllowed
        else
          match maxCoWorkers_allowed homework with
          | Some allowed =>
              if teamSubmissions homework && truthy_number (Some allowed)
                 && Z.leb 1 allowed && Z.ltb allowed size
              then inl (TeamTooLarge allowed)
              else inr hook
          | None => inr hook
          end
    end
  else inr hook.

End Hooks.

(** The first two hooks of [before.create]. *)
Definition create_coworkers (hook : Hook) : Hook :=
  normalizeCoWorkers (setCoWorkers hook).

(** A student handing in alone, and a homework that takes teams of three. *)
Definition solo : Hook :=
  {| data := {| grade := None; gradeComment := None; teamMembers := NoMembers;
                studentId := None; homeworkId := Some "hw1" |};
     userId := "u1" |}.

Definition team_of (members : list string) : Hook :=
  set_teamMembers (MemberList members) solo.

Definition homework_for_three (homeworkId : JsString) : HookError + Homework :=
  inr {| teamSubmissions := true; maxCoWorkers_allowed := Some 3 |}.

End Submissions.

(** * Properties *)

Section Properties.

Context {User School Result : Type}.
Variable lib : LdapLib.
Variable getLDAPStrategy : option LdapConfig -> @LDAPStrategy User School Result.

(** ** Promise plumbing *)

Lemma then_resolved {A B} (p : Op A) (f : A -> Op B) st a st1 :
  p st = (Resolved a, st1) ->
  then_ p f st =
    match f a st1 with
    | (Thrown e, st2) => (Rejected e, st2)
    | r => r
    end.
Proof. intros H. unfold then_. by rewrite H. Qed.

Lemma then_inv {A B} (p : Op A) (f : A -> Op B) st b st2 :
  then_ p f st = (Resolved b, st2) ->
  exists a st1, p st = (Resolved a, st1) /\ f a st1 = (Resolved b, st2).
Proof.
  unfold then_. destruct (p st) as [[a| | |] st1]; try discriminate.
  destruct (f a st1) as [[b'| | |] st2'] eqn:Hf; intros [= <- <-].
  by exists a, st1.
Qed.

(** ** [_connect] *)

Lemma _connect_resolved config username password st client st1 :
  _connect lib config username password st = (Resolved client, st1) ->
  exists c u p,
    config = Some c /\ truthy (url c) = true /\
    username_or_default config username = inr u /\
    password_or_default config password = inr p /\
    createClient_throws lib (url c) = None /\
    bind_result lib (url c) u p = BindOk /\
    client = {| handle := next_handle st; client_url := url c |} /\
    st1 = mark_connected client
            (log_bind {| bind_client := client; bind_username := u;
                         bind_password := p |}
               (snd (new_client (url c) st))).
Proof.
  unfold _connect, has_url.
  destruct (username_or_default config username) as [e|u]; [discriminate|].
  destruct (password_or_default config password) as [e|p]; [discriminate|].
  destruct config as [c|]; [|discriminate].
  destruct (truthy (url c)) eqn:Hurl; simpl;
    destruct (createClient_throws lib (url c)) eqn:Hc; try discriminate;
    destruct (bind_result lib (url c) u p) eqn:Hb; simpl; try discriminate.
  intros H. exists c, u, p. by simplify_eq.
Qed.

Lemma _connect_registry config username password st :
  clients (snd (_connect lib config username password st)) = clients st.
Proof.
  unfold _connect, new_client.
  repeat case_match; done.
Qed.

Lemma _connect_allocates config username password st :
  (next_handle st <= next_handle (snd (_connect lib config username password st)))%nat.
Proof.
  unfold _connect, new_client.
  repeat case_match; simpl; lia.
Qed.

(** ** [_getClient] *)

Lemma _getClient_cached c st client :
  cached_connected st c = Some client ->
  _getClient lib (Some c) st = (Resolved client, st).
Proof.
  unfold cached_connected, _getClient.
  destruct (clients st !! to_str (_id c)) as [cl|]; [|discriminate].
  destruct (is_connected st cl); [|discriminate].
  by intros [= ->].
Qed.

Lemma _getClient_uncached c st :
  cached_connected st c = None ->
  _getClient lib (Some c) st =
    then_ (_connect lib (Some c) None None)
          (fun client st' => (Resolved client, _addClient c client st')) st.
Proof.
  unfold cached_connected, _getClient.
  destruct (clients st !! to_str (_id c)) as [cl|]; [|done].
  by destruct (is_connected st cl).
Qed.

(** A handle [_getClient] resolves with is the one cached afterwards. *)
Lemma _getClient_resolved c st client st1 :
  _getClient lib (Some c) st = (Resolved client, st1) ->
  clients st1 !! to_str (_id c) = Some client /\
  (cached_connected st c = Some client /\ st1 = st \/
   cached_connected st c = None /\
   exists st0,
     _connect lib (Some c) None None st = (Resolved client, st0) /\
     st1 = _addClient c client st0).
Proof.
  destruct (cached_connected st c) as [cl|] eqn:Hc.
  - rewrite (_getClient_cached _ _ _ Hc). intros [= -> ->].
    split; [|by left].
    unfold cached_connected in Hc.
    destruct (clients st1 !! to_str (_id c)) as [cl|]; [|discriminate].
    destruct (is_connected st1 cl); by simplify_eq.
  - rewrite (_getClient_uncached _ _ Hc). intros H.
    apply then_inv in H as (a & st0 & Hconn & [= -> <-]).
    split; [apply lookup_insert_eq|].
    right. split; [done|]. by exists st0.
Qed.

(** The registry is written under the configuration's own key only. *)
Lemma _getClient_frame config st :
  elsewhere config (clients (snd (_getClient lib config st))) =
  elsewhere config (clients st).
Proof.
  destruct config as [c|]; [|done].
  destruct (cached_connected st c) as [cl|] eqn:Hc.
  - by rewrite (_getClient_cached _ _ _ Hc).
  - rewrite (_getClient_uncached _ _ Hc). unfold then_.
    pose proof (_connect_registry (Some c) None None st) as Hreg.
    destruct (_connect lib (Some c) None None st) as [[a| | |] st0];
      simpl in *; rewrite ?Hreg; try done.
    apply delete_insert_eq.
Qed.

(** ** Searches *)

Lemma on_events_entries objects acc rest p :
  on_events (map SearchEntry objects ++ rest) acc p =
  on_events rest (acc ++ objects) p.
Proof.
  revert acc. induction objects as [|o objects IH]; intros acc; simpl.
  - by rewrite app_nil_r.
  - rewrite IH. by rewrite <- app_assoc.
Qed.

Lemma search_on_registry client searchString options st :
  clients (snd (search_on lib client searchString options st)) = clients st.
Proof. unfold search_on. by case_match. Qed.

Lemma search_on_never_throws client searchString options st e st1 :
  search_on lib client searchString options st <> (Thrown e, st1).
Proof.
  unfold search_on.
  destruct (search_result lib client searchString options) as [err|events];
    [done|].
  intros [= Hthrown _]. revert Hthrown.
  generalize (@nil LdapObject).
  assert (forall evs objs (p : Outcome (list LdapObject)),
             (forall e', p <> Thrown e') ->
             forall e', on_events evs objs p <> Thrown e') as Hev.
  { induction evs as [|[o|status|err] evs IH]; intros objs p Hp e'; simpl.
    - apply Hp.
    - by apply IH.
    - apply IH. intros e''.
      destruct p, (Z.eqb status 0); simpl; try done; apply Hp.
    - apply IH. intros e''. destruct p; simpl; try done; apply Hp. }
  intros objs. by apply Hev.
Qed.

Lemma searchCollection_frame config searchString options st :
  elsewhere config
    (clients (snd (searchCollection lib config searchString options st))) =
  elsewhere config (clients st).
Proof.
  unfold searchCollection, then_.
  pose proof (_getClient_frame config st) as Hg.
  destruct (_getClient lib config st) as [[client| | |] st1]; simpl in *; try done.
  pose proof (search_on_registry client searchString options st1) as Hs.
  destruct (search_on lib client searchString options st1) as [[?| | |] st2];
    simpl in *; by rewrite Hs.
Qed.

Lemma searchObject_frame config searchString options st :
  elsewhere config
    (clients (snd (searchObject lib config searchString options st))) =
  elsewhere config (clients st).
Proof.
  unfold searchObject, then_.
  pose proof (searchCollection_frame config searchString options st) as Hc.
  destruct (searchCollection lib config searchString options st)
    as [[[|o objects]| | |] st1]; simpl in *; done.
Qed.

Lemma authenticate_frame system username password st :
  elsewhere (ldapConfig system)
    (clients (snd (authenticate lib system username password st))) =
  elsewhere (ldapConfig system) (clients st).
Proof.
  unfold authenticate, then_.
  pose proof (_connect_registry (ldapConfig system) (Some username)
                (Some password) st) as Hreg.
  destruct (_connect lib (ldapConfig system) (Some username) (Some password) st)
    as [[client| | |] st1]; simpl in *; rewrite ?Hreg; try done.
  pose proof (searchObject_frame (ldapConfig system) username
                self_lookup_options st1) as Hs.
  fold self_lookup_options.
  destruct (searchObject lib (ldapConfig system) username self_lookup_options st1)
    as [[?| | |] st2]; simpl in *; by rewrite Hs, Hreg.
Qed.

(** The listings are searches with the query of the strategy. *)
Lemma listings_frame config school st :
  elsewhere config (clients (snd (getSchools lib getLDAPStrategy config st))) =
    elsewhere config (clients st) /\
  elsewhere config (clients (snd (getUsers lib getLDAPStrategy config school st))) =
    elsewhere config (clients st) /\
  elsewhere config (clients (snd (getClasses lib getLDAPStrategy config school st))) =
    elsewhere config (clients st).
Proof.
  unfold getSchools, getUsers, getClasses.
  destruct (getSchoolsQuery (getLDAPStrategy config)) as [s1 o1].
  destruct (getUsersQuery (getLDAPStrategy config) school) as [s2 o2].
  destruct (getClassesQuery (getLDAPStrategy config) school) as [s3 o3].
  split_and!; apply searchCollection_frame.
Qed.

Lemma _disconnect_frame config st :
  elsewhere config (clients (snd (_disconnect lib config st))) =
  elsewhere config (clients st).
Proof.
  unfold _disconnect.
  pose proof (_getClient_frame config st) as Hg.
  destruct (_getClient lib config st) as [[client| | |] st1]; simpl in *; done.
Qed.

(** ** The claims about searches *)

(** C1: when the connection is obtained and the server emits the entries
    [objects] and then [end] with [status], [searchCollection] resolves
    with exactly [objects], in emission order, if [status] is 0, and is
    rejected with a directory error, handing out none of the entries,
    otherwise. *)
Theorem searchCollection_all_or_nothing config searchString options st
    client st1 objects status :
  _getClient lib config st = (Resolved client, st1) ->
  search_result lib client searchString options =
    SearchRes (map SearchEntry objects ++ [End status]) ->
  let st2 :=
    log_search {| search_client := client; search_base := searchString;
                  search_options := options |} st1 in
  searchCollection lib config searchString options st =
    (if Z.eqb status 0 then Resolved objects
     else Rejected (ErrString "LDAP result code != 0"), st2) /\
  classify (ErrString "LDAP result code != 0") = DirectoryError.
Proof.
  intros Hget Hres st2. split; [|done].
  unfold searchCollection. rewrite (then_resolved _ _ _ _ _ Hget).
  unfold search_on. rewrite Hres, on_events_entries. simpl.
  by destruct (Z.eqb status 0).
Qed.

(** C6: [searchObject] hands out the first element of what
    [searchCollection] resolved with, and is rejected with a not-found
    error when that list is empty. *)
Theorem searchObject_first_or_not_found config searchString options st
    objects st1 :
  searchCollection lib config searchString options st = (Resolved objects, st1) ->
  searchObject lib config searchString options st =
    (match objects with
     | first :: _ => Resolved first
     | [] => Rejected (ErrString "Object not found")
     end, st1) /\
  classify (ErrString "Object not found") = NotFoundError.
Proof.
  intros Hc. split; [|done].
  unfold searchObject. rewrite (then_resolved _ _ _ _ _ Hc).
  by destruct objects.
Qed.

(** A failed [searchCollection] is the failure of [searchObject]. *)
Lemma searchObject_propagates config searchString options st e st1 :
  searchCollection lib config searchString options st = (Rejected e, st1) ->
  searchObject lib config searchString options st = (Rejected e, st1).
Proof. intros Hc. unfold searchObject, then_. by rewrite Hc. Qed.

(** ** The claims about the registry *)

(** C3: after a first [_getClient] on a configuration with no cached
    handle has resolved, a second call returns that same handle and
    leaves the state as it is, so it binds nothing, as long as the
    registry is untouched and the handle still reports connected. *)
Theorem _getClient_twice_same_handle c st client st1 st1' :
  clients st !! to_str (_id c) = None ->
  _getClient lib (Some c) st = (Resolved client, st1) ->
  clients st1' = clients st1 ->
  is_connected st1' client = true ->
  clients st1 !! to_str (_id c) = Some client /\
  _getClient lib (Some c) st1' = (Resolved client, st1') /\
  bind_log (snd (_getClient lib (Some c) st1')) = bind_log st1'.
Proof.
  intros Hnone Hget Hreg Hconn.
  destruct (_getClient_resolved _ _ _ _ Hget) as [Hcached _].
  assert (cached_connected st1' c = Some client) as Hc.
  { unfold cached_connected. by rewrite Hreg, Hcached, Hconn. }
  split; [done|]. by rewrite (_getClient_cached _ _ _ Hc).
Qed.

(** C7: called without credentials (absent or empty), [_connect] binds
    the client it creates as [uid=<searchUser>,cn=users,<rootPath>] with
    the configured password, and that is the one bind [_getClient] issues
    when it finds no connected handle in the registry. *)
Theorem _connect_default_credentials c username password st :
  truthy username = false ->
  truthy password = false ->
  let client := {| handle := next_handle st; client_url := url c |} in
  let bound :=
    {| bind_client := client;
       bind_username :=
         Some ("uid=" +:+ to_str (searchUser c) +:+ ",cn=users,"
                 +:+ to_str (rootPath c));
       bind_password := searchUserPassword c |} in
  let issued :=
    match createClient_throws lib (url c) with
    | Some _ => bind_log st
    | None => (bind_log st ++ [bound])%list
    end in
  bind_log (snd (_connect lib (Some c) username password st)) = issued /\
  bind_log (snd (_getClient lib (Some c) st)) =
    match cached_connected st c with
    | Some _ => bind_log st
    | None => issued
    end.
Proof.
  intros Hu Hp client bound issued.
  assert (forall u p, truthy u = false -> truthy p = false ->
            bind_log (snd (_connect lib (Some c) u p st)) = issued) as Hbind.
  { intros u p Hu' Hp'. subst issued bound client.
    unfold _connect, username_or_default, password_or_default.
    rewrite Hu', Hp'.
    destruct (createClient_throws lib (url c)); [done|]. simpl.
    by destruct (bind_result lib (url c) _ _), (negb (has_url (Some c))). }
  split; [by apply Hbind|].
  destruct (cached_connected st c) as [cl|] eqn:Hc.
  - by rewrite (_getClient_cached _ _ _ Hc).
  - rewrite (_getClient_uncached _ _ Hc). unfold then_.
    specialize (Hbind None None eq_refl eq_refl).
    by destruct (_connect lib (Some c) None None st) as [[a| | |] st0].
Qed.

(** C8: the registry holds one handle per identifier: caching a handle
    under an identifier makes it the handle of that identifier, in place
    of any earlier one, and touches no other identifier; every operation
    of the service leaves the entries of all other identifiers alone; and
    in any state no identifier is listed twice. *)
Theorem registry_one_handle_per_id :
  (forall c client st,
     clients (_addClient c client st) !! to_str (_id c) = Some client /\
     elsewhere (Some c) (clients (_addClient c client st)) =
       elsewhere (Some c) (clients st) /\
     dom (clients (_addClient c client st)) =
       {[ to_str (_id c) ]} ∪ dom (clients st)) /\
  (forall config username password st,
     clients (snd (_connect lib config username password st)) = clients st) /\
  (forall config st,
     elsewhere config (clients (snd (_getClient lib config st))) =
     elsewhere config (clients st)) /\
  (forall config st,
     elsewhere config (clients (snd (_disconnect lib config st))) =
     elsewhere config (clients st)) /\
  (forall config searchString options st,
     elsewhere config
       (clients (snd (searchCollection lib config searchString options st))) =
     elsewhere config (clients st)) /\
  (forall config searchString options st,
     elsewhere config
       (clients (snd (searchObject lib config searchString options st))) =
     elsewhere config (clients st)) /\
  (forall system username password st,
     elsewhere (ldapConfig system)
       (clients (snd (authenticate lib system username password st))) =
     elsewhere (ldapConfig system) (clients st)) /\
  (forall config school st,
     elsewhere config (clients (snd (getSchools lib getLDAPStrategy config st))) =
       elsewhere config (clients st) /\
     elsewhere config
       (clients (snd (getUsers lib getLDAPStrategy config school st))) =
       elsewhere config (clients st) /\
     elsewhere config
       (clients (snd (getClasses lib getLDAPStrategy config school st))) =
       elsewhere config (clients st)) /\
  (forall st, NoDup (map_to_list (clients st)).*1).
Proof.
  split_and!.
  - intros c client st. simpl. split_and!.
    + apply lookup_insert_eq.
    + apply delete_insert_eq.
    + apply dom_insert_L.
  - apply _connect_registry.
  - apply _getClient_frame.
  - apply _disconnect_frame.
  - apply searchCollection_frame.
  - apply searchObject_frame.
  - apply authenticate_frame.
  - apply listings_frame.
  - intros st. apply NoDup_fst_map_to_list.
Qed.

(** ** [authenticate] *)

Lemma _connect_resolved_state c username password st client st1 :
  _connect lib (Some c) username password st = (Resolved client, st1) ->
  client = {| handle := next_handle st; client_url := url c |} /\
  clients st1 = clients st /\
  next_handle st1 = S (next_handle st) /\
  connected st1 = {[ next_handle st ]} ∪ connected st /\
  bind_log st1 = (bind_log st ++ [bind_as c client username password])%list /\
  search_log st1 = search_log st.
Proof.
  intros H.
  apply _connect_resolved in H
    as (c' & u & p & [= <-] & _ & Hu & Hp & _ & _ & -> & ->).
  unfold username_or_default in Hu. unfold password_or_default in Hp.
  unfold bind_as. simpl.
  destruct (truthy username), (truthy password); by simplify_eq.
Qed.

Lemma search_on_state client searchString options st :
  snd (search_on lib client searchString options st) =
  log_search {| search_client := client; search_base := searchString;
                search_options := options |} st.
Proof. unfold search_on. by case_match. Qed.

(** A fresh connection does not disturb what [_getClient] would reuse. *)
Lemma cached_connected_after_connect c config username password st client st1 :
  cache_allocated st ->
  _connect lib (Some config) username password st = (Resolved client, st1) ->
  cached_connected st1 c = cached_connected st c.
Proof.
  intros Hwf H.
  apply _connect_resolved_state in H as (_ & Hreg & _ & Hconn & _).
  unfold cached_connected, is_connected. rewrite Hreg, Hconn.
  destruct (clients st !! to_str (_id c)) as [cl|] eqn:Hcl; [|done].
  apply Hwf in Hcl.
  assert (handle cl ∈ ({[next_handle st]} ∪ connected st : gset nat)
          <-> handle cl ∈ connected st) as Hiff.
  { rewrite elem_of_union, elem_of_singleton. split; [|by right].
    intros [Heq|]; [lia|done]. }
  by rewrite (bool_decide_ext _ _ Hiff).
Qed.

(** C10: in a successful [authenticate] the self-lookup runs on the
    client [_getClient] hands out: the handle already cached for the
    configuration, or else a second new client bound with the
    service-account credentials.  That client, and not the dedicated one
    bound first, is the one cached afterwards and the one the search is
    issued on. *)
Theorem authenticate_searches_on_cached_connection system username password
    st entry st' :
  cache_allocated st ->
  authenticate lib system username password st = (Resolved entry, st') ->
  exists c dedicated service,
    ldapConfig system = Some c /\
    dedicated = {| handle := next_handle st; client_url := url c |} /\
    handle service <> handle dedicated /\
    clients st' !! to_str (_id c) = Some service /\
    search_log st' =
      (search_log st ++
         [{| search_client := service; search_base := username;
             search_options := self_lookup_options |}])%list /\
    match cached_connected st c with
    | Some cached =>
        service = cached /\
        bind_log st' =
          (bind_log st ++
             [bind_as c dedicated (Some username) (Some password)])%list
    | None =>
        service = {| handle := S (next_handle st); client_url := url c |} /\
        bind_log st' =
          (bind_log st ++
             [bind_as c dedicated (Some username) (Some password);
              service_bind c service])%list
    end.
Proof.
  intros Hwf Hauth. unfold authenticate in Hauth.
  apply then_inv in Hauth as (dedicated & st1 & Hded & Hobj).
  destruct (ldapConfig system) as [c|] eqn:Hcfg;
    [|by apply _connect_resolved in Hded as (? & ? & ? & ? & _)].
  pose proof (cached_connected_after_connect c _ _ _ _ _ _ Hwf Hded) as Hsame.
  apply _connect_resolved_state in Hded
    as (Hdedicated & Hreg1 & Hnext1 & _ & Hbind1 & Hsearch1).
  unfold searchObject in Hobj.
  apply then_inv in Hobj as (objects & st2 & Hcoll & Hfirst).
  assert (st' = st2) as -> by (destruct objects; by simplify_eq).
  unfold searchCollection in Hcoll.
  apply then_inv in Hcoll as (service & st3 & Hget & Hsearch).
  assert (st2 = log_search {| search_client := service; search_base := username;
                              search_options := self_lookup_options |} st3)
    as ->.
  { change (search_on lib service username self_lookup_options st3 =
            (Resolved objects, st2)) in Hsearch.
    rewrite <- search_on_state. by rewrite Hsearch. }
  exists c, dedicated, service. simpl.
  destruct (_getClient_resolved _ _ _ _ Hget)
    as [Hcached [[Hc ->]|[Hc (st0 & Hserv & ->)]]];
    rewrite Hsame in Hc; rewrite Hc.
  - split_and!; try done.
    + rewrite Hreg1 in Hcached. apply Hwf in Hcached. subst dedicated. simpl. lia.
    + by rewrite Hsearch1.
  - apply _connect_resolved_state in Hserv
      as (Hservice & Hreg0 & _ & _ & Hbind0 & Hsearch0).
    rewrite Hnext1 in Hservice.
    split_and!; try done.
    + subst. simpl. lia.
    + simpl. by rewrite Hsearch0, Hsearch1.
    + simpl. rewrite Hbind0, Hbind1, <- app_assoc. by subst service.
Qed.

(** X18: with credentials that are not empty, the first bind [authenticate]
    issues is on a new client and carries exactly those credentials; a
    rejected bind is an authentication error and ends the call with the
    registry and the search log as they were. *)
Lemma authenticate_bind_rejected c username password st err :
  truthy (url c) = true ->
  truthy (Some username) = true ->
  truthy (Some password) = true ->
  createClient_throws lib (url c) = None ->
  bind_result lib (url c) (Some username) (Some password) = BindErr err ->
  exists st',
    authenticate lib {| ldapConfig := Some c |} username password st =
      (Rejected (NotAuthenticated "Wrong credentials"), st') /\
    clients st' = clients st /\ search_log st' = search_log st /\
    bind_log st' =
      (bind_log st ++
         [{| bind_client := {| handle := next_handle st; client_url := url c |};
             bind_username := Some username;
             bind_password := Some password |}])%list.
Proof.
  intros Hurl Hu Hp Hcreate Hbind. eexists.
  unfold authenticate, then_, _connect, username_or_default,
    password_or_default, has_url.
  rewrite Hu, Hp. cbn [ldapConfig]. rewrite Hurl, Hcreate. simpl.
  rewrite Hbind. simpl. done.
Qed.

(** ** Missing configurations and [_disconnect] *)

(** X19: a configuration without URL is a configuration error whatever the
    library and the server do with the client that is still created. *)
Lemma _getClient_no_url c st :
  truthy (url c) = false ->
  cached_connected st c = None ->
  fst (_getClient lib (Some c) st) =
    Rejected (ErrString "Invalid URL in config object.").
Proof.
  intros Hurl Hc. rewrite (_getClient_uncached _ _ Hc).
  unfold then_, _connect, has_url. simpl. rewrite Hurl. simpl.
  destruct (createClient_throws lib (url c)); [done|].
  by destruct (bind_result lib (url c) _ _).
Qed.

(** X20: a bind of the service account that the server rejects is an
    authentication error, and nothing is cached. *)
Lemma _getClient_bind_rejected c st err :
  truthy (url c) = true ->
  cached_connected st c = None ->
  createClient_throws lib (url c) = None ->
  bind_result lib (url c)
    (Some ("uid=" +:+ to_str (searchUser c) +:+ ",cn=users,"
             +:+ to_str (rootPath c)))
    (searchUserPassword c) = BindErr err ->
  fst (_getClient lib (Some c) st) = Rejected (NotAuthenticated "Wrong credentials") /\
  clients (snd (_getClient lib (Some c) st)) = clients st.
Proof.
  intros Hurl Hc Hcreate Hbind. rewrite (_getClient_uncached _ _ Hc).
  unfold then_, _connect, has_url. simpl in *.
  by rewrite Hurl, Hcreate, Hbind.
Qed.

(** C4: with no configuration at all, [_getClient] raises a TypeError at
    its first line instead of rejecting with the configuration error; the
    guard of [_connect] is reached, and works, only when credentials are
    passed in, as [authenticate] does. *)
Theorem _getClient_missing_config st :
  _getClient lib None st =
    (Thrown (TypeError "Cannot read property '_id' of undefined"), st) /\
  classify (TypeError "Cannot read property '_id' of undefined") = RuntimeError /\
  _connect lib None None None st =
    (Thrown (TypeError "Cannot read property 'searchUser' of undefined"), st) /\
  _connect lib None (Some "uid=alice,cn=users,dc=school") (Some "secret") st =
    (Rejected (ErrString "Invalid URL in config object."), st).
Proof. done. Qed.

Lemma _disconnect_cached c st client :
  truthy (_id c) = true ->
  cached_connected st c = Some client ->
  _disconnect lib (Some c) st =
    (Rejected (TypeError "this._getClient(...).unbind is not a function"), st).
Proof.
  intros Hid Hc. unfold _disconnect, has_id.
  by rewrite Hid, (_getClient_cached _ _ _ Hc).
Qed.

(** X21: without an identifier the call is rejected with the configuration
    error. *)
Lemma _disconnect_missing_id config st :
  has_id config = false ->
  fst (_disconnect lib config st) = Rejected (ErrString "Invalid config object").
Proof.
  intros Hid. unfold _disconnect. rewrite Hid. simpl.
  by destruct (_getClient lib config st) as [[?| | |] ?].
Qed.

(** C5: with the handle of [s1] cached and connected, [_disconnect] is
    rejected with a TypeError and changes nothing: the handle is still
    cached and still reports connected, and no unbind reaches it. *)
Theorem _disconnect_leaves_handle_open :
  let client := {| handle := 0%nat; client_url := Some "ldap://host" |} in
  cached_connected Example.connected_state Example.s1 = Some client /\
  _disconnect lib (Some Example.s1) Example.connected_state =
    (Rejected (TypeError "this._getClient(...).unbind is not a function"),
     Example.connected_state) /\
  classify (TypeError "this._getClient(...).unbind is not a function") = RuntimeError.
Proof.
  assert (cached_connected Example.connected_state Example.s1 =
          Some {| handle := 0%nat; client_url := Some "ldap://host" |}) as Hc
    by (vm_compute; reflexivity).
  split_and!; [done| |done].
  by apply (_disconnect_cached Example.s1 _ _ eq_refl Hc).
Qed.

(** C2: called with an empty username and an empty password,
    [authenticate] binds the dedicated client with the service-account
    credentials of the configuration, not with what the caller supplied,
    and resolves with an entry although the server rejects a bind with
    the supplied credentials. *)
Theorem authenticate_empty_credentials :
  let r := authenticate Example.server Example.system "" "" init in
  fst r = Resolved Example.alice /\
  bind_log (snd r) =
    [service_bind Example.s1 {| handle := 0%nat; client_url := Some "ldap://host" |};
     service_bind Example.s1 {| handle := 1%nat; client_url := Some "ldap://host" |}] /\
  bind_username
    (service_bind Example.s1 {| handle := 0%nat; client_url := Some "ldap://host" |}) =
    Some "uid=admin,cn=users,dc=school" /\
  bind_result Example.server (Some "ldap://host") (Some "") (Some "") =
    BindErr "InvalidCredentialsError".
Proof. vm_compute. done. Qed.

(** ** The cache holds allocated handles only *)

Lemma then_invariant {A B} (I : State -> Prop) (p : Op A) (f : A -> Op B) :
  (forall st, I st -> I (snd (p st))) ->
  (forall a st, I st -> I (snd (f a st))) ->
  forall st, I st -> I (snd (then_ p f st)).
Proof.
  intros Hp Hf st Hst. unfold then_.
  specialize (Hp st Hst).
  destruct (p st) as [[a| | |] st1]; simpl in *; try done.
  specialize (Hf a st1 Hp).
  by destruct (f a st1) as [[?| | |] st2].
Qed.

Lemma _connect_allocated config username password st :
  cache_allocated st ->
  cache_allocated (snd (_connect lib config username password st)).
Proof.
  intros Hwf k client Hk. rewrite _connect_registry in Hk.
  apply Hwf in Hk.
  pose proof (_connect_allocates config username password st). lia.
Qed.

Lemma _getClient_allocated config st :
  cache_allocated st -> cache_allocated (snd (_getClient lib config st)).
Proof.
  intros Hwf. destruct config as [c|]; [|done].
  destruct (cached_connected st c) as [cl|] eqn:Hc.
  - by rewrite (_getClient_cached _ _ _ Hc).
  - rewrite (_getClient_uncached _ _ Hc). unfold then_.
    pose proof (_connect_allocated (Some c) None None st Hwf) as Hwf'.
    destruct (_connect lib (Some c) None None st) as [[a| | |] st0] eqn:Hconn;
      simpl in *; try done.
    apply _connect_resolved_state in Hconn as (-> & Hreg & Hnext & _).
    intros k client. simpl.
    destruct (decide (to_str (_id c) = k)) as [<-|Hne].
    + rewrite lookup_insert_eq. intros [= <-]. simpl. lia.
    + rewrite lookup_insert_ne by done. apply Hwf'.
Qed.

Lemma search_on_allocated client searchString options st :
  cache_allocated st ->
  cache_allocated (snd (search_on lib client searchString options st)).
Proof. intros Hwf. by rewrite search_on_state. Qed.

Lemma searchCollection_allocated config searchString options st :
  cache_allocated st ->
  cache_allocated (snd (searchCollection lib config searchString options st)).
Proof.
  apply (then_invariant cache_allocated).
  - apply _getClient_allocated.
  - intros client. apply search_on_allocated.
Qed.

Lemma searchObject_allocated config searchString options st :
  cache_allocated st ->
  cache_allocated (snd (searchObject lib config searchString options st)).
Proof.
  apply (then_invariant cache_allocated).
  - apply searchCollection_allocated.
  - by intros [|o objects].
Qed.

Lemma authenticate_allocated system username password st :
  cache_allocated st ->
  cache_allocated (snd (authenticate lib system username password st)).
Proof.
  apply (then_invariant cache_allocated).
  - apply _connect_allocated.
  - intros _. apply searchObject_allocated.
Qed.

Lemma _disconnect_allocated config st :
  cache_allocated st -> cache_allocated (snd (_disconnect lib config st)).
Proof.
  intros Hwf. apply (_getClient_allocated config) in Hwf.
  unfold _disconnect.
  by destruct (_getClient lib config st) as [[?| | |] st1].
Qed.

Lemma reachable_allocated st : reachable lib st -> cache_allocated st.
Proof.
  induction 1 as [| | | | | |client st _ IH].
  - intros k client. unfold init. simpl. by rewrite lookup_empty.
  - by apply _getClient_allocated.
  - by apply _disconnect_allocated.
  - by apply searchCollection_allocated.
  - by apply searchObject_allocated.
  - by apply authenticate_allocated.
  - apply IH.
Qed.

End Properties.

(** ** Teams and groups *)

Section Teams.

Context {User School Result : Type}.
Variable getLDAPStrategy : option LdapConfig -> @LDAPStrategy User School Result.

(** C9: [addUserToTeam] and [removeUserFromTeam] hand the strategy the
    group named [schulcloud-<team._id>], whatever the team is called, with
    the team's name as its description. *)
Theorem team_group_for_strategy config user team :
  addUserToTeam getLDAPStrategy config user team =
    addUserToGroup (getLDAPStrategy config) user
      {| LDAPGroup.name := "schulcloud-" +:+ to_str (Team._id team);
         LDAPGroup.description := Team.name team |} /\
  removeUserFromTeam getLDAPStrategy config user team =
    removeUserFromGroup (getLDAPStrategy config) user
      {| LDAPGroup.name := "schulcloud-" +:+ to_str (Team._id team);
         LDAPGroup.description := Team.name team |} /\
  (forall teamId name,
     LDAPGroup.name
       (_teamToGroup {| Team._id := Some teamId; Team.name := name |}) =
     "schulcloud-" +:+ teamId).
Proof. done. Qed.

End Teams.

(** ** The theorems at the example directory *)

(** Three entries and result code 0 give the three entries in order; the
    same entries and result code 1 give the directory error. *)
Lemma searchCollection_all_or_nothing_witness :
  searchCollection Example.server (Some Example.s1) "cn=users,dc=school"
    Example.any_options init =
    (Resolved [Example.alice; Example.bob; Example.carol],
     log_search
       {| search_client := {| handle := 0%nat; client_url := Some "ldap://host" |};
          search_base := "cn=users,dc=school";
          search_options := Example.any_options |} Example.connected_state) /\
  searchCollection Example.failing_server (Some Example.s1) "cn=users,dc=school"
    Example.any_options init =
    (Rejected (ErrString "LDAP result code != 0"),
     log_search
       {| search_client := {| handle := 0%nat; client_url := Some "ldap://host" |};
          search_base := "cn=users,dc=school";
          search_options := Example.any_options |} Example.connected_state).
Proof.
  split.
  - exact (proj1 (searchCollection_all_or_nothing Example.server
             (Some Example.s1) "cn=users,dc=school" Example.any_options init
             {| handle := 0%nat; client_url := Some "ldap://host" |}
             Example.connected_state
             [Example.alice; Example.bob; Example.carol] 0 eq_refl eq_refl)).
  - exact (proj1 (searchCollection_all_or_nothing Example.failing_server
             (Some Example.s1) "cn=users,dc=school" Example.any_options init
             {| handle := 0%nat; client_url := Some "ldap://host" |}
             Example.connected_state
             [Example.alice; Example.bob; Example.carol] 1 eq_refl eq_refl)).
Defined.

(** The first of three entries is handed out; an empty result is the
    not-found error. *)
Lemma searchObject_first_or_not_found_witness :
  fst (searchObject Example.server (Some Example.s1) "cn=users,dc=school"
         Example.any_options init) = Resolved Example.alice /\
  fst (searchObject Example.empty_server (Some Example.s1) "cn=users,dc=school"
         Example.any_options init) = Rejected (ErrString "Object not found").
Proof.
  split.
  - exact (f_equal fst
             (proj1 (searchObject_first_or_not_found Example.server
                       (Some Example.s1) "cn=users,dc=school" Example.any_options
                       init [Example.alice; Example.bob; Example.carol]
                       (snd (searchCollection Example.server (Some Example.s1)
                               "cn=users,dc=school" Example.any_options init))
                       eq_refl))).
  - exact (f_equal fst
             (proj1 (searchObject_first_or_not_found Example.empty_server
                       (Some Example.s1) "cn=users,dc=school" Example.any_options
                       init []
                       (snd (searchCollection Example.empty_server (Some Example.s1)
                               "cn=users,dc=school" Example.any_options init))
                       eq_refl))).
Defined.

(** The second [_getClient] on [s1] returns handle 0 again and binds
    nothing. *)
Lemma _getClient_twice_same_handle_witness :
  _getClient Example.server (Some Example.s1) init =
    (Resolved {| handle := 0%nat; client_url := Some "ldap://host" |},
     Example.connected_state) /\
  _getClient Example.server (Some Example.s1) Example.connected_state =
    (Resolved {| handle := 0%nat; client_url := Some "ldap://host" |},
     Example.connected_state).
Proof.
  split; [reflexivity|].
  exact (proj1 (proj2 (_getClient_twice_same_handle Example.server Example.s1
                         init {| handle := 0%nat; client_url := Some "ldap://host" |}
                         Example.connected_state Example.connected_state
                         eq_refl eq_refl eq_refl eq_refl))).
Defined.

(** The example of the specification: [s1] is bound as
    [uid=admin,cn=users,dc=school] with password [p]. *)
Lemma _connect_default_credentials_witness :
  bind_log (snd (_getClient Example.server (Some Example.s1) init)) =
    [{| bind_client := {| handle := 0%nat; client_url := Some "ldap://host" |};
        bind_username := Some "uid=admin,cn=users,dc=school";
        bind_password := Some "p" |}].
Proof.
  exact (proj2 (_connect_default_credentials Example.server Example.s1 None None
                  init eq_refl eq_refl)).
Defined.

(** alice logs in on a fresh service: client 0 is bound as alice, client 1
    as the service account, and the search runs on client 1, which is the
    one cached. *)
Lemma authenticate_searches_on_cached_connection_witness :
  exists c dedicated service,
    ldapConfig Example.system = Some c /\
    dedicated = {| handle := 0%nat; client_url := url c |} /\
    handle service <> handle dedicated /\
    clients (snd (authenticate Example.server Example.system
                    "uid=alice,cn=users,dc=school" "secret" init))
      !! to_str (_id c) = Some service /\
    search_log (snd (authenticate Example.server Example.system
                       "uid=alice,cn=users,dc=school" "secret" init)) =
      [{| search_client := service;
          search_base := "uid=alice,cn=users,dc=school";
          search_options := self_lookup_options |}] /\
    service = {| handle := 1%nat; client_url := url c |} /\
    bind_log (snd (authenticate Example.server Example.system
                     "uid=alice,cn=users,dc=school" "secret" init)) =
      [bind_as c dedicated (Some "uid=alice,cn=users,dc=school") (Some "secret");
       service_bind c service].
Proof.
  exact (authenticate_searches_on_cached_connection Example.server
           Example.system "uid=alice,cn=users,dc=school" "secret" init
           Example.alice
           (snd (authenticate Example.server Example.system
                   "uid=alice,cn=users,dc=school" "secret" init))
           (reachable_allocated Example.server init (reach_init Example.server))
           eq_refl).
Defined.


(** * Further properties of the service *)

Section Searches.

Variable lib : LdapLib.

(** ** The events of a search *)

Lemma on_events_settled events objects (p : Outcome (list LdapObject)) :
  p <> Pending -> on_events events objects p = p.
Proof.
  revert objects. induction events as [|[o|status|err] events IH];
    intros objects Hp; simpl; [done|by apply IH| |].
  - destruct p, (Z.eqb status 0); simpl; try done; by apply IH.
  - destruct p; simpl; try done; by apply IH.
Qed.


Lemma on_events_not_thrown events objects (p : Outcome (list LdapObject)) e :
  (forall e', p <> Thrown e') -> on_events events objects p <> Thrown e.
Proof.
  revert objects p. induction events as [|[o|status|err] events IH];
    intros objects p Hp; simpl.
  - apply Hp.
  - by apply IH.
  - apply IH. intros e'. destruct p, (Z.eqb status 0); simpl; try done; apply Hp.
  - apply IH. intros e'. destruct p; simpl; try done; apply Hp.
Qed.

(** What [searchCollection] comes to once the connection is there. *)
Lemma searchCollection_connected config searchString options st client st1 :
  _getClient lib config st = (Resolved client, st1) ->
  searchCollection lib config searchString options st =
    (match search_result lib client searchString options with
     | SearchErr err => Rejected (LdapError err)
     | SearchRes events => on_events events [] Pending
     end,
     log_search {| search_client := client; search_base := searchString;
                   search_options := options |} st1).
Proof.
  intros Hget. unfold searchCollection.
  rewrite (then_resolved _ _ _ _ _ Hget). unfold search_on.
  destruct (search_result lib client searchString options) as [err|events];
    [done|].
  destruct (on_events events [] Pending) eqn:Hev; try done.
  by apply on_events_not_thrown in Hev.
Qed.


(** X2: an [error] event after any number of entries rejects the search
    with that error; the entries received are not handed out, and neither
    is anything that follows. *)
Theorem search_error_event_discards_entries config searchString options st
    client st1 objects err rest :
  _getClient lib config st = (Resolved client, st1) ->
  search_result lib client searchString options =
    SearchRes (map SearchEntry objects ++ Error err :: rest) ->
  fst (searchCollection lib config searchString options st) =
    Rejected (LdapError err) /\
  classify (LdapError err) = DirectoryError.
Proof.
  intros Hget Hres. split; [|done].
  rewrite (searchCollection_connected _ _ _ _ _ _ Hget), Hres. simpl.
  rewrite on_events_entries. simpl. by apply on_events_settled.
Qed.

(** X3: a response that carries entries but neither [end] nor [error]
    leaves the search pending: nothing in the service ever settles it. *)
Theorem search_without_end_stays_pending config searchString options st
    client st1 objects :
  _getClient lib config st = (Resolved client, st1) ->
  search_result lib client searchString options =
    SearchRes (map SearchEntry objects) ->
  fst (searchCollection lib config searchString options st) = Pending.
Proof.
  intros Hget Hres.
  rewrite (searchCollection_connected _ _ _ _ _ _ Hget), Hres. simpl.
  rewrite <- (app_nil_r (map SearchEntry objects)).
  by rewrite on_events_entries.
Qed.

(** X4: when the search callback gets an error, the search is rejected
    with it, after exactly one search request on the connection. *)
Theorem search_callback_error config searchString options st client st1 err :
  _getClient lib config st = (Resolved client, st1) ->
  search_result lib client searchString options = SearchErr err ->
  searchCollection lib config searchString options st =
    (Rejected (LdapError err),
     log_search {| search_client := client; search_base := searchString;
                   search_options := options |} st1).
Proof.
  intros Hget Hres.
  by rewrite (searchCollection_connected _ _ _ _ _ _ Hget), Hres.
Qed.

End Searches.


Lemma search_error_event_discards_entries_witness :
  fst (searchCollection
         (Script.server
            (SearchRes [SearchEntry Example.alice; SearchEntry Example.bob;
                        Error "connection reset"; End 0]))
         (Some Example.s1) "cn=users,dc=school" Example.any_options init) =
  Rejected (LdapError "connection reset").
Proof.
  exact (proj1 (search_error_event_discards_entries (Script.server _)
                  (Some Example.s1) "cn=users,dc=school" Example.any_options
                  init Script.client0 Example.connected_state
                  [Example.alice; Example.bob] "connection reset" [End 0]
                  eq_refl eq_refl)).
Defined.

Lemma search_without_end_stays_pending_witness :
  fst (searchCollection
         (Script.server (SearchRes [SearchEntry Example.alice; SearchEntry Example.bob]))
         (Some Example.s1) "cn=users,dc=school" Example.any_options init) =
  Pending.
Proof.
  exact (search_without_end_stays_pending (Script.server _)
           (Some Example.s1) "cn=users,dc=school" Example.any_options
           init Script.client0 Example.connected_state
           [Example.alice; Example.bob] eq_refl eq_refl).
Defined.

Lemma search_callback_error_witness :
  fst (searchCollection (Script.server (SearchErr "NoSuchObjectError"))
         (Some Example.s1) "cn=nobody" Example.any_options init) =
  Rejected (LdapError "NoSuchObjectError").
Proof.
  exact (f_equal fst
           (search_callback_error (Script.server _) (Some Example.s1)
              "cn=nobody" Example.any_options init Script.client0
              Example.connected_state "NoSuchObjectError" eq_refl eq_refl)).
Defined.

Section Connections.

Context {User School Result : Type}.
Variable lib : LdapLib.
Variable getLDAPStrategy : option LdapConfig -> @LDAPStrategy User School Result.

(** ** Stale handles and failed connections *)

(** X5: a cached handle that no longer reports connected is replaced: with
    a URL configured and a server that accepts the service account,
    [_getClient] binds a new client, hands it out and caches it in place of
    the stale one. *)
Theorem _getClient_replaces_stale_handle c st stale :
  cache_allocated st ->
  clients st !! to_str (_id c) = Some stale ->
  is_connected st stale = false ->
  truthy (url c) = true ->
  createClient_throws lib (url c) = None ->
  bind_result lib (url c)
    (Some ("uid=" +:+ to_str (searchUser c) +:+ ",cn=users,"
             +:+ to_str (rootPath c)))
    (searchUserPassword c) = BindOk ->
  let fresh := {| handle := next_handle st; client_url := url c |} in
  let st' := snd (_getClient lib (Some c) st) in
  fst (_getClient lib (Some c) st) = Resolved fresh /\
  handle fresh <> handle stale /\
  clients st' !! to_str (_id c) = Some fresh /\
  is_connected st' fresh = true /\
  bind_log st' = (bind_log st ++ [service_bind c fresh])%list.
Proof.
  intros Hwf Hstale Hconn Hurl Hcreate Hbind fresh st'.
  assert (_getClient lib (Some c) st =
          (Resolved fresh,
           _addClient c fresh
             (mark_connected fresh
                (log_bind (service_bind c fresh) (snd (new_client (url c) st))))))
    as Hget.
  { unfold _getClient. rewrite Hstale, Hconn.
    unfold then_, _connect, username_or_default, password_or_default, has_url.
    simpl. by rewrite Hurl, Hcreate, Hbind. }
  subst st'. rewrite Hget. simpl. split_and!; try done.
  - apply Hwf in Hstale. lia.
  - apply lookup_insert_eq.
  - unfold is_connected. simpl. apply bool_decide_eq_true. set_solver.
Qed.

(** X6: a call of [_getClient] that does not resolve leaves the registry as
    it was; in particular a failed reconnect keeps the stale handle. *)
Theorem _getClient_failure_keeps_registry config st :
  is_resolved (fst (_getClient lib config st)) = false ->
  clients (snd (_getClient lib config st)) = clients st.
Proof.
  destruct config as [c|]; [|done].
  destruct (cached_connected st c) as [cl|] eqn:Hc.
  - by rewrite (_getClient_cached lib _ _ _ Hc).
  - rewrite (_getClient_uncached lib _ _ Hc). unfold then_.
    pose proof (_connect_registry lib (Some c) None None st) as Hreg.
    by destruct (_connect lib (Some c) None None st) as [[a| | |] st0].
Qed.

(** X7: a username passed to [_connect] without a password is bound with
    the password of the service account. *)
Theorem _connect_username_without_password c username password st :
  truthy username = true ->
  truthy password = false ->
  createClient_throws lib (url c) = None ->
  bind_log (snd (_connect lib (Some c) username password st)) =
    (bind_log st ++
       [{| bind_client := {| handle := next_handle st; client_url := url c |};
           bind_username := username;
           bind_password := searchUserPassword c |}])%list.
Proof.
  intros Hu Hp Hcreate.
  unfold _connect, username_or_default, password_or_default.
  rewrite Hu, Hp, Hcreate. simpl.
  by destruct (bind_result lib (url c) _ _), (negb (has_url (Some c))).
Qed.

(** ** Searches and the connection *)

Lemma _connect_search_log config username password st :
  search_log (snd (_connect lib config username password st)) = search_log st.
Proof. unfold _connect, new_client. repeat case_match; done. Qed.

Lemma _getClient_search_log config st :
  search_log (snd (_getClient lib config st)) = search_log st.
Proof.
  destruct config as [c|]; [|done].
  destruct (cached_connected st c) as [cl|] eqn:Hc.
  - by rewrite (_getClient_cached lib _ _ _ Hc).
  - rewrite (_getClient_uncached lib _ _ Hc). unfold then_.
    pose proof (_connect_search_log (Some c) None None st) as Hlog.
    by destruct (_connect lib (Some c) None None st) as [[a| | |] st0].
Qed.

Lemma searchObject_state config searchString options st :
  snd (searchObject lib config searchString options st) =
  snd (searchCollection lib config searchString options st).
Proof.
  unfold searchObject, then_.
  by destruct (searchCollection lib config searchString options st)
    as [[[|o objects]| | |] st1].
Qed.

(** X8: with a connected handle in the registry, a search of any kind
    reuses it: it creates no client, binds nothing, leaves the registry
    alone, and its one effect is the search request on that handle. *)
Theorem search_reuses_connection c searchString options school st client :
  cached_connected st c = Some client ->
  let searched base opts :=
    log_search {| search_client := client; search_base := base;
                  search_options := opts |} st in
  snd (searchCollection lib (Some c) searchString options st) =
    searched searchString options /\
  snd (searchObject lib (Some c) searchString options st) =
    searched searchString options /\
  snd (getSchools lib getLDAPStrategy (Some c) st) =
    searched (getSchoolsQuery (getLDAPStrategy (Some c))).1
             (getSchoolsQuery (getLDAPStrategy (Some c))).2 /\
  snd (getUsers lib getLDAPStrategy (Some c) school st) =
    searched (getUsersQuery (getLDAPStrategy (Some c)) school).1
             (getUsersQuery (getLDAPStrategy (Some c)) school).2 /\
  snd (getClasses lib getLDAPStrategy (Some c) school st) =
    searched (getClassesQuery (getLDAPStrategy (Some c)) school).1
             (getClassesQuery (getLDAPStrategy (Some c)) school).2.
Proof.
  intros Hc searched.
  assert (forall base opts,
            snd (searchCollection lib (Some c) base opts st) = searched base opts)
    as Hcoll.
  { intros base opts.
    by rewrite (searchCollection_connected lib _ _ _ _ _ _
                  (_getClient_cached lib _ _ _ Hc)). }
  unfold getSchools, getUsers, getClasses.
  destruct (getSchoolsQuery (getLDAPStrategy (Some c))) as [s1 o1].
  destruct (getUsersQuery (getLDAPStrategy (Some c)) school) as [s2 o2].
  destruct (getClassesQuery (getLDAPStrategy (Some c)) school) as [s3 o3].
  rewrite searchObject_state. by split_and!.
Qed.

(** X9: when the connection cannot be had, no search request is issued and
    the search is rejected with the error of the connection attempt. *)
Theorem search_without_connection config searchString options st e :
  fst (_getClient lib config st) = Rejected e ->
  searchCollection lib config searchString options st =
    (Rejected e, snd (_getClient lib config st)) /\
  search_log (snd (searchCollection lib config searchString options st)) =
    search_log st.
Proof.
  intros Hget.
  assert (searchCollection lib config searchString options st =
          (Rejected e, snd (_getClient lib config st))) as Hcoll.
  { unfold searchCollection, then_.
    destruct (_getClient lib config st) as [o st1]. simpl in Hget. by subst o. }
  split; [done|]. rewrite Hcoll. simpl. apply _getClient_search_log.
Qed.

(** ** [_disconnect] *)

(** X10: [_disconnect] is rejected on every configuration and in every
    state: it never resolves, never stays pending and never raises. *)
Theorem _disconnect_never_resolves config st :
  exists e, fst (_disconnect lib config st) = Rejected e.
Proof.
  unfold _disconnect.
  destruct (_getClient lib config st) as [[a| | |] st1];
    destruct (negb (has_id config)); simpl; eauto.
Qed.

(** X11: on a configuration without identifier [_disconnect] is rejected,
    and goes on to connect all the same: the configuration's service
    account is bound on a new client, which ends up in the registry under
    the key the missing identifier converts to. *)
Theorem _disconnect_without_id_still_connects c st :
  truthy (_id c) = false ->
  cached_connected st c = None ->
  truthy (url c) = true ->
  createClient_throws lib (url c) = None ->
  bind_result lib (url c)
    (Some ("uid=" +:+ to_str (searchUser c) +:+ ",cn=users,"
             +:+ to_str (rootPath c)))
    (searchUserPassword c) = BindOk ->
  let fresh := {| handle := next_handle st; client_url := url c |} in
  let st' := snd (_disconnect lib (Some c) st) in
  fst (_disconnect lib (Some c) st) = Rejected (ErrString "Invalid config object") /\
  clients st' !! to_str (_id c) = Some fresh /\
  bind_log st' = (bind_log st ++ [service_bind c fresh])%list.
Proof.
  intros Hid Hc Hurl Hcreate Hbind fresh st'.
  assert (_getClient lib (Some c) st =
          (Resolved fresh,
           _addClient c fresh
             (mark_connected fresh
                (log_bind (service_bind c fresh) (snd (new_client (url c) st))))))
    as Hget.
  { rewrite (_getClient_uncached lib _ _ Hc).
    unfold then_, _connect, username_or_default, password_or_default, has_url.
    simpl. by rewrite Hurl, Hcreate, Hbind. }
  subst st'. unfold _disconnect, has_id. rewrite Hid, Hget. simpl.
  split_and!; try done. apply lookup_insert_eq.
Qed.

(** ** [authenticate] *)

(** X12: on a system without LDAP configuration, [authenticate] with
    credentials that are not empty is rejected with the configuration
    error, and nothing is created, bound or searched. *)
Theorem authenticate_without_config username password st :
  truthy (Some username) = true ->
  truthy (Some password) = true ->
  authenticate lib {| ldapConfig := None |} username password st =
    (Rejected (ErrString "Invalid URL in config object."), st).
Proof.
  intros Hu Hp.
  unfold authenticate, then_, _connect, username_or_default, password_or_default.
  by rewrite Hu, Hp.
Qed.

(** X13: once the dedicated bind went through and the shared connection is
    there, [authenticate] comes to the first entry of the self-lookup, or
    to the not-found error when the lookup ends with no entry. *)
Theorem authenticate_self_lookup c username password st dedicated st1
    service st2 objects :
  _connect lib (Some c) (Some username) (Some password) st =
    (Resolved dedicated, st1) ->
  _getClient lib (Some c) st1 = (Resolved service, st2) ->
  search_result lib service username self_lookup_options =
    SearchRes (map SearchEntry objects ++ [End 0]) ->
  fst (authenticate lib {| ldapConfig := Some c |} username password st) =
    match objects with
    | first :: _ => Resolved first
    | [] => Rejected (ErrString "Object not found")
    end.
Proof.
  intros Hded Hget Hres.
  unfold authenticate. cbn [ldapConfig].
  rewrite (then_resolved _ _ _ _ _ Hded).
  change {| filter := None; scope := "sub"; attributes := [] |}
    with self_lookup_options.
  unfold searchObject at 1.
  assert (searchCollection lib (Some c) username self_lookup_options st1 =
          (Resolved objects,
           log_search {| search_client := service; search_base := username;
                         search_options := self_lookup_options |} st2)) as Hcoll.
  { rewrite (searchCollection_connected lib _ _ _ _ _ _ Hget), Hres.
    by rewrite on_events_entries. }
  rewrite (then_resolved _ _ _ _ _ Hcoll). by destruct objects.
Qed.

End Connections.

Section Invariants.

Variable lib : LdapLib.

(** ** What a run of the service keeps *)

(** [_connect] either leaves the state alone or creates one client and
    binds it, once. *)
Lemma _connect_effect config username password st :
  snd (_connect lib config username password st) = st \/
  exists c b,
    config = Some c /\
    bind_client b = {| handle := next_handle st; client_url := url c |} /\
    b = bind_as c (bind_client b) username password /\
    (snd (_connect lib config username password st) =
       log_bind b (snd (new_client (url c) st)) \/
     snd (_connect lib config username password st) =
       mark_connected (bind_client b) (log_bind b (snd (new_client (url c) st)))).
Proof.
  unfold _connect, username_or_default, password_or_default.
  destruct config as [c|]; [|repeat case_match; by left].
  destruct (createClient_throws lib (url c)); [repeat case_match; by left|].
  right. exists c, (bind_as c {| handle := next_handle st; client_url := url c |}
                      username password).
  unfold bind_as. simpl.
  destruct (truthy username), (truthy password); simpl;
    (split_and!; [done..|]);
    match goal with
    | |- context [bind_result ?l ?u ?n ?p] => destruct (bind_result l u n p)
    end; simpl; auto.
Qed.

Lemma extends_refl st : extends st st.
Proof. by split. Qed.

Lemma extends_trans st1 st2 st3 :
  extends st1 st2 -> extends st2 st3 -> extends st1 st3.
Proof.
  intros [] []. split; etrans; eassumption.
Qed.

Lemma then_extends {A B} (p : Op A) (f : A -> Op B) :
  (forall st, extends st (snd (p st))) ->
  (forall a st, extends st (snd (f a st))) ->
  forall st, extends st (snd (then_ p f st)).
Proof.
  intros Hp Hf st.
  apply (then_invariant (extends st) p f); [| |apply extends_refl].
  - intros st1 H1. by eapply extends_trans.
  - intros a st1 H1. by eapply extends_trans.
Qed.

Lemma _connect_extends config username password st :
  extends st (snd (_connect lib config username password st)).
Proof.
  destruct (_connect_effect config username password st)
    as [->|(c & b & _ & _ & _ & [->| ->])]; [apply extends_refl| |];
    split; simpl; try done; try lia; try (by apply prefix_app_r);
    set_solver.
Qed.

Lemma _getClient_extends config st :
  extends st (snd (_getClient lib config st)).
Proof.
  destruct config as [c|]; [|apply extends_refl].
  destruct (cached_connected st c) as [cl|] eqn:Hc.
  - rewrite (_getClient_cached lib _ _ _ Hc). apply extends_refl.
  - rewrite (_getClient_uncached lib _ _ Hc).
    apply then_extends; [intros; apply _connect_extends|].
    intros a st1. split; simpl; try done. rewrite dom_insert_L. set_solver.
Qed.

Lemma search_on_extends client searchString options st :
  extends st (snd (search_on lib client searchString options st)).
Proof.
  rewrite search_on_state. split; simpl; try done. by apply prefix_app_r.
Qed.

Lemma searchCollection_extends config searchString options st :
  extends st (snd (searchCollection lib config searchString options st)).
Proof.
  apply then_extends; [apply _getClient_extends|].
  intros client. apply search_on_extends.
Qed.

Lemma searchObject_extends config searchString options st :
  extends st (snd (searchObject lib config searchString options st)).
Proof.
  rewrite searchObject_state. apply searchCollection_extends.
Qed.

Lemma authenticate_extends system username password st :
  extends st (snd (authenticate lib system username password st)).
Proof.
  apply then_extends; [apply _connect_extends|].
  intros _. apply searchObject_extends.
Qed.

Lemma _disconnect_extends config st :
  extends st (snd (_disconnect lib config st)).
Proof.
  pose proof (_getClient_extends config st) as H. unfold _disconnect.
  by destruct (_getClient lib config st) as [[?| | |] st1].
Qed.

(** ** Who is in the registry *)







(** ** Clients and binds *)

Lemma _connect_one_bind config username password st :
  one_bind_per_client st ->
  one_bind_per_client (snd (_connect lib config username password st)).
Proof.
  unfold one_bind_per_client. intros Hinv.
  destruct (_connect_effect config username password st)
    as [->|(c & b & _ & Hb & _ & [->| ->])]; [done| |];
    unfold mark_connected, log_bind, new_client;
    cbn [snd bind_log next_handle];
    rewrite fmap_app, Hinv, seq_S; simpl; by rewrite Hb.
Qed.

Lemma _getClient_one_bind config st :
  one_bind_per_client st ->
  one_bind_per_client (snd (_getClient lib config st)).
Proof.
  intros Hinv. destruct config as [c|]; [|done].
  destruct (cached_connected st c) as [cl|] eqn:Hc.
  - by rewrite (_getClient_cached lib _ _ _ Hc).
  - rewrite (_getClient_uncached lib _ _ Hc). revert Hinv.
    apply (then_invariant one_bind_per_client); [apply _connect_one_bind|done].
Qed.

Lemma searchCollection_one_bind config searchString options st :
  one_bind_per_client st ->
  one_bind_per_client (snd (searchCollection lib config searchString options st)).
Proof.
  apply (then_invariant one_bind_per_client).
  - apply _getClient_one_bind.
  - intros client st1 H1. by rewrite search_on_state.
Qed.

(** X16: whatever the service has been asked to do, every client it
    created was bound exactly once, right after its creation, and nothing
    else was ever bound: the binds, in order, are on clients 0, 1, 2, ... *)
Theorem reachable_one_bind_per_client st :
  reachable lib st -> one_bind_per_client st.
Proof.
  induction 1 as [|config st _ IH|config st _ IH|config s o st _ IH
                  |config s o st _ IH|system u p st _ IH|client st _ IH].
  - done.
  - by apply _getClient_one_bind.
  - apply (_getClient_one_bind config) in IH. unfold _disconnect.
    by destruct (_getClient lib config st) as [[?| | |] st1].
  - by apply searchCollection_one_bind.
  - rewrite searchObject_state. by apply searchCollection_one_bind.
  - revert IH. apply (then_invariant one_bind_per_client).
    + apply _connect_one_bind.
    + intros _ st1 H1. rewrite searchObject_state.
      by apply searchCollection_one_bind.
  - apply IH.
Qed.

End Invariants.

Section Growth.

Context {User School Result : Type}.
Variable lib : LdapLib.
Variable getLDAPStrategy : option LdapConfig -> @LDAPStrategy User School Result.

(** X14: no operation of the service takes an identifier out of the
    registry or closes a connection, and none undoes a client, a bind or a
    search: the state after an operation extends the state before it. *)
Theorem operations_only_add :
  (forall config username password st,
     extends st (snd (_connect lib config username password st))) /\
  (forall config st, extends st (snd (_getClient lib config st))) /\
  (forall config st, extends st (snd (_disconnect lib config st))) /\
  (forall config searchString options st,
     extends st (snd (searchCollection lib config searchString options st))) /\
  (forall config searchString options st,
     extends st (snd (searchObject lib config searchString options st))) /\
  (forall system username password st,
     extends st (snd (authenticate lib system username password st))) /\
  (forall config school st,
     extends st (snd (getSchools lib getLDAPStrategy config st)) /\
     extends st (snd (getUsers lib getLDAPStrategy config school st)) /\
     extends st (snd (getClasses lib getLDAPStrategy config school st))).
Proof.
  split_and!.
  - apply _connect_extends.
  - apply _getClient_extends.
  - apply _disconnect_extends.
  - apply searchCollection_extends.
  - apply searchObject_extends.
  - apply authenticate_extends.
  - intros config school st. unfold getSchools, getUsers, getClasses.
    destruct (getSchoolsQuery (getLDAPStrategy config)) as [s1 o1].
    destruct (getUsersQuery (getLDAPStrategy config) school) as [s2 o2].
    destruct (getClassesQuery (getLDAPStrategy config) school) as [s3 o3].
    split_and!; apply searchCollection_extends.
Qed.

End Growth.

(** ** Group names *)

Lemma append_prefix_inj (prefix a b : string) :
  prefix +:+ a = prefix +:+ b -> a = b.
Proof.
  induction prefix as [|ch prefix IH]; simpl; [done|].
  intros [= H]. by apply IH.
Qed.

(** X17: teams with different identifiers get different group names, and
    teams with the same identifier the same one, whatever they are called;
    a team without identifier gets the name [schulcloud-undefined]. *)
Theorem _teamToGroup_name_identifies_team id1 id2 name1 name2 :
  (LDAPGroup.name (_teamToGroup {| Team._id := Some id1; Team.name := name1 |}) =
   LDAPGroup.name (_teamToGroup {| Team._id := Some id2; Team.name := name2 |})
   <-> id1 = id2) /\
  LDAPGroup.name (_teamToGroup {| Team._id := None; Team.name := name1 |}) =
    "schulcloud-undefined".
Proof.
  split; [|done]. unfold _teamToGroup. simpl. split.
  - apply (append_prefix_inj "schulcloud-").
  - by intros ->.
Qed.

(** ** The further properties at the example directory *)

Lemma _getClient_replaces_stale_handle_witness :
  fst (_getClient Example.server (Some Example.s1) Script.stale_state) =
    Resolved {| handle := 1%nat; client_url := Some "ldap://host" |}.
Proof.
  exact (proj1 (_getClient_replaces_stale_handle Example.server Example.s1
                  Script.stale_state Script.client0
                  (reachable_allocated Example.server _
                     (reach_drop _ Script.client0 _
                        (reach_getClient _ (Some Example.s1) _
                           (reach_init Example.server))))
                  eq_refl eq_refl eq_refl eq_refl eq_refl)).
Defined.

Lemma _getClient_failure_keeps_registry_witness :
  clients (snd (_getClient Example.server (Some Script.stranger)
                  Example.connected_state)) =
  clients Example.connected_state.
Proof.
  exact (_getClient_failure_keeps_registry Example.server
           (Some Script.stranger) Example.connected_state eq_refl).
Defined.

Lemma _connect_username_without_password_witness :
  bind_log (snd (_connect Example.server (Some Example.s1)
                   (Some Script.alice_dn) (Some "") init)) =
    [{| bind_client := Script.client0;
        bind_username := Some Script.alice_dn;
        bind_password := Some "p" |}].
Proof.
  exact (_connect_username_without_password Example.server Example.s1
           (Some Script.alice_dn) (Some "") init eq_refl eq_refl eq_refl).
Defined.

Lemma search_reuses_connection_witness :
  snd (getUsers Example.server Script.strategy (Some Example.s1) tt
         Example.connected_state) =
    log_search {| search_client := Script.client0;
                  search_base := "cn=users,dc=school";
                  search_options := Example.any_options |}
      Example.connected_state.
Proof.
  exact (proj1 (proj2 (proj2 (proj2
           (search_reuses_connection Example.server Script.strategy Example.s1
              "cn=users,dc=school" Example.any_options tt
              Example.connected_state Script.client0 eq_refl))))).
Defined.

Lemma search_without_connection_witness :
  searchCollection Example.server (Some Script.stranger) "cn=users,dc=school"
    Example.any_options init =
    (Rejected (NotAuthenticated "Wrong credentials"),
     snd (_getClient Example.server (Some Script.stranger) init)).
Proof.
  exact (proj1 (search_without_connection Example.server (Some Script.stranger)
                  "cn=users,dc=school" Example.any_options init
                  (NotAuthenticated "Wrong credentials") eq_refl)).
Defined.

Lemma _disconnect_without_id_still_connects_witness :
  fst (_disconnect Example.server (Some Script.anonymous) init) =
    Rejected (ErrString "Invalid config object") /\
  clients (snd (_disconnect Example.server (Some Script.anonymous) init))
    !! "undefined" = Some Script.client0.
Proof.
  pose proof (_disconnect_without_id_still_connects Example.server
                Script.anonymous init eq_refl eq_refl eq_refl eq_refl eq_refl)
    as (H1 & H2 & _).
  exact (conj H1 H2).
Defined.

Lemma authenticate_without_config_witness :
  authenticate Example.server {| ldapConfig := None |} Script.alice_dn "secret"
    init =
    (Rejected (ErrString "Invalid URL in config object."), init).
Proof.
  exact (authenticate_without_config Example.server Script.alice_dn "secret"
           init eq_refl eq_refl).
Defined.

Lemma authenticate_self_lookup_witness :
  fst (authenticate Example.server Example.system Script.alice_dn "secret" init) =
    Resolved Example.alice /\
  fst (authenticate Example.empty_server Example.system Script.alice_dn "secret"
         init) = Rejected (ErrString "Object not found").
Proof.
  split.
  - exact (authenticate_self_lookup Example.server Example.s1 Script.alice_dn
             "secret" init Script.client0
             (snd (_connect Example.server (Some Example.s1)
                     (Some Script.alice_dn) (Some "secret") init))
             {| handle := 1%nat; client_url := Some "ldap://host" |}
             (snd (_getClient Example.server (Some Example.s1)
                     (snd (_connect Example.server (Some Example.s1)
                             (Some Script.alice_dn) (Some "secret") init))))
             [Example.alice] eq_refl eq_refl eq_refl).
  - exact (authenticate_self_lookup Example.empty_server Example.s1
             Script.alice_dn "secret" init Script.client0
             (snd (_connect Example.empty_server (Some Example.s1)
                     (Some Script.alice_dn) (Some "secret") init))
             {| handle := 1%nat; client_url := Some "ldap://host" |}
             (snd (_getClient Example.empty_server (Some Example.s1)
                     (snd (_connect Example.empty_server (Some Example.s1)
                             (Some Script.alice_dn) (Some "secret") init))))
             [] eq_refl eq_refl eq_refl).
Defined.


Lemma reachable_one_bind_per_client_witness :
  one_bind_per_client Script.logged_in_state.
Proof.
  exact (reachable_one_bind_per_client Example.server Script.logged_in_state
           (reach_authenticate Example.server Example.system Script.alice_dn
              "secret" init (reach_init Example.server))).
Defined.

Lemma authenticate_bind_rejected_witness :
  exists st',
    authenticate Example.server Example.system Script.alice_dn "wrong" init =
      (Rejected (NotAuthenticated "Wrong credentials"), st') /\
    clients st' = clients init /\ search_log st' = search_log init /\
    bind_log st' =
      (bind_log init ++
         [{| bind_client := Script.client0;
             bind_username := Some Script.alice_dn;
             bind_password := Some "wrong" |}])%list.
Proof.
  exact (authenticate_bind_rejected Example.server Example.s1 Script.alice_dn
           "wrong" init "InvalidCredentialsError"
           eq_refl eq_refl eq_refl eq_refl eq_refl).
Defined.

Lemma _getClient_no_url_witness :
  fst (_getClient Example.server (Some Script.nowhere) init) =
    Rejected (ErrString "Invalid URL in config object.").
Proof.
  exact (_getClient_no_url Example.server Script.nowhere init eq_refl eq_refl).
Defined.

Lemma _getClient_bind_rejected_witness :
  fst (_getClient Example.server (Some Script.stranger) init) =
    Rejected (NotAuthenticated "Wrong credentials") /\
  clients (snd (_getClient Example.server (Some Script.stranger) init)) =
    clients init.
Proof.
  exact (_getClient_bind_rejected Example.server Script.stranger init
           "InvalidCredentialsError" eq_refl eq_refl eq_refl eq_refl).
Defined.

Lemma _disconnect_missing_id_witness :
  fst (_disconnect Example.server None Example.connected_state) =
    Rejected (ErrString "Invalid config object").
Proof.
  exact (_disconnect_missing_id Example.server None Example.connected_state
           eq_refl).
Defined.

(** * Properties of the WOPI hooks *)

Section WopiHooks.

Import Wopi.

Context {Authenticated : Type}.
Variable authenticate_jwt : Params -> Authenticated.
Variable findOne : JsString -> HookError + option File.

Lemma truthy_Some_inv v :
  truthy v = true -> exists s, v = Some s /\ s <> "".
Proof.
  destruct v as [s|]; [|done]. simpl. intros H. exists s. split; [done|].
  intros ->. done.
Qed.

(** X22: an Authorization header that is not empty wins over the token of
    the query: the hook hands the request on to the JWT authentication as
    it came. *)
Theorem wopiAuthentication_header_first params h token :
  headers params = Some h ->
  h !! "authorization" = Some token ->
  token <> "" ->
  wopiAuthentication authenticate_jwt params = inr (authenticate_jwt params).
Proof.
  intros Hh Hauth Htoken. unfold wopiAuthentication, or_else.
  rewrite Hh. simpl. rewrite Hauth.
  assert (truthy (Some token) = true) as Ht.
  { simpl. by destruct (String.eqb_spec token ""). }
  rewrite Ht, Ht. do 2 f_equal.
  unfold set_headers. rewrite (insert_id _ _ _ Hauth).
  destruct params; simpl in *; by subst.
Qed.

(** X23: the hook raises exactly when neither the Authorization header nor
    the [access_token] of the query holds a token that is not empty, and
    what it raises then is the missing-token error. *)
Theorem wopiAuthentication_missing_token params :
  (wopiAuthentication authenticate_jwt params =
     inl (PlainError "access_token is missing!")
   <-> truthy (default ∅ (headers params) !! "authorization") = false /\
       truthy (default ∅ (query params) !! "access_token") = false) /\
  (forall e, wopiAuthentication authenticate_jwt params = inl e ->
             e = PlainError "access_token is missing!").
Proof.
  unfold wopiAuthentication, or_else.
  destruct (truthy (default ∅ (headers params) !! "authorization")) eqn:Hh.
  - destruct (truthy_Some_inv _ Hh) as (s & Hs & _).
    rewrite Hs in *. rewrite Hh. split; [split|]; [done|by intros [? _]|done].
  - destruct (default ∅ (query params) !! "access_token") as [t|] eqn:Hq.
    + destruct (truthy (Some t)) eqn:Ht.
      * split; [split|]; [done|by intros [_ ?]|done].
      * split; [split|]; [done|done|by intros e [= <-]].
    + split; [split|]; [done|done|by intros e [= <-]].
Qed.

(** When and how [checkLockHeader] lets a request pass. *)
Lemma checkLockHeader_decision params h :
  headers params = Some h ->
  (forall params', checkLockHeader findOne params = inr params' ->
                   params' = params) /\
  (checkLockHeader findOne params = inr params <->
   concerning (wopiAction params) = false \/
   exists file,
     findOne (fileId params) = inr (Some file) /\
     (truthy (lockId file) = false \/ h !! "x-wopi-lock" = lockId file)).
Proof.
  intros Hh. unfold checkLockHeader. rewrite Hh.
  destruct (concerning (wopiAction params)); simpl.
  2:{ split; [by intros ? [= <-]|]. split; [by left|done]. }
  destruct (findOne (fileId params)) as [e|[file|]] eqn:Hfind.
  - split; [done|]. split; [done|]. by intros [|(? & ? & _)].
  - assert (forall P : Prop,
              (P <-> (truthy (lockId file) = false \/
                      h !! "x-wopi-lock" = lockId file)) ->
              (P <-> true = false \/
                     exists file0,
                       @inr HookError _ (Some file) = inr (Some file0) /\
                       (truthy (lockId file0) = false \/
                        h !! "x-wopi-lock" = lockId file0))) as Hwrap.
    { intros P HP. rewrite HP. split.
      - intros H. right. by exists file.
      - intros [|(f & [= <-] & H)]; done. }
    unfold or_else.
    destruct (truthy (lockId file)) eqn:Hlock.
    + destruct (truthy_Some_inv _ Hlock) as (l & Hl & Hne).
      rewrite Hl. simpl.
      assert (negb (String.eqb l "") = true) as ->
        by (by destruct (String.eqb_spec l "")).
      simpl. unfold differs.
      destruct (h !! "x-wopi-lock") as [given|] eqn:Hgiven.
      * destruct (String.eqb_spec l given) as [->|Hdiff]; simpl.
        -- split; [by intros ? [= <-]|]. apply Hwrap. rewrite Hl.
           split; [by right|done].
        -- split; [done|]. apply Hwrap. rewrite Hl.
           split; [done|]. intros [|[= ->]]; done.
      * split; [done|]. apply Hwrap. rewrite Hl.
        split; [done|]. intros [|]; done.
    + assert (default "" (if truthy (lockId file) then lockId file else Some "") = "")
        as Hempty by (by rewrite Hlock).
      rewrite Hlock in Hempty. rewrite Hempty. simpl.
      split; [by intros ? [= <-]|]. apply Hwrap.
      split; [by left|done].
  - split; [done|]. split; [done|]. by intros [|(? & ? & _)].
Qed.

(** X24: [checkLockHeader] never changes the request, and lets it pass
    exactly when its action is none of LOCK, PUT, REFRESH_LOCK and UNLOCK,
    or the file is there and either carries no lock or carries the lock of
    the X-WOPI-Lock header. *)
Theorem checkLockHeader_passes_iff params h :
  headers params = Some h ->
  (forall params', checkLockHeader findOne params = inr params' ->
                   params' = params) /\
  (checkLockHeader findOne params = inr params <->
   concerning (wopiAction params) = false \/
   exists file,
     findOne (fileId params) = inr (Some file) /\
     (truthy (lockId file) = false \/ h !! "x-wopi-lock" = lockId file)).
Proof. apply checkLockHeader_decision. Qed.

(** X25: a request that gets through the hooks of an editing method
    carries an X-WOPI-Override header that is not empty, which has become
    its action, and if that action is one of LOCK, PUT, REFRESH_LOCK and
    UNLOCK, the file is there and carries no lock or the lock of the
    request. *)
Theorem before_edit_passes params params' :
  before_edit findOne params = inr params' ->
  exists action,
    action <> "" /\
    default ∅ (headers params) !! "x-wopi-override" = Some action /\
    wopiAction params' = Some action /\
    headers params' = Some (default ∅ (headers params)) /\
    query params' = query params /\ fileId params' = fileId params /\
    (concerning (Some action) = false \/
     exists file,
       findOne (fileId params) = inr (Some file) /\
       (truthy (lockId file) = false \/
        default ∅ (headers params) !! "x-wopi-lock" = lockId file)).
Proof.
  unfold before_edit, retrieveWopiOverrideHeader.
  destruct (truthy (default ∅ (headers params) !! "x-wopi-override")) eqn:Hov;
    [|done]. simpl.
  destruct (truthy_Some_inv _ Hov) as (action & Haction & Hne).
  intros Hcheck. exists action.
  set (mid := set_wopiAction _ _) in Hcheck.
  destruct (checkLockHeader_decision mid (default ∅ (headers params)) eq_refl)
    as [Hsame Hiff].
  pose proof (Hsame _ Hcheck) as ->.
  apply Hiff in Hcheck.
  subst mid. simpl in *. rewrite Haction in *.
  split_and!; done.
Qed.

End WopiHooks.

(** * Properties of the submission hooks *)

Section SubmissionHooks.

Import Submissions.

Variable get_homework : JsString -> HookError + Homework.

(** X26: after [normalizeCoWorkers] a request that does not grade carries
    its team as an array that is not empty; an array given with members in
    it is kept as it is. *)
Theorem normalizeCoWorkers_team_not_empty hook :
  grading (data hook) = false ->
  exists members,
    teamMembers (data (normalizeCoWorkers hook)) = MemberList members /\
    members <> [] /\
    match teamMembers (data hook) with
    | MemberList (first :: rest) => members = first :: rest
    | _ => True
    end.
Proof.
  intros Hg. unfold normalizeCoWorkers. rewrite Hg. simpl.
  destruct (teamMembers (data hook)) as [|member|[|first rest]]; simpl.
  - by exists [userId hook].
  - destruct (negb (String.eqb member "")); simpl.
    + exists [member]. by case_bool_decide.
    + by exists [userId hook].
  - by exists [userId hook].
  - exists (first :: rest). by case_bool_decide.
Qed.

(** X27: when a request that does not grade names team members, the owner
    [studentId] it leaves [normalizeCoWorkers] with is one of them: the
    user, if the user is in the team, and the first member otherwise. *)
Theorem normalizeCoWorkers_owner_in_team hook first rest :
  grading (data hook) = false ->
  teamMembers (data hook) = MemberList (first :: rest) ->
  exists owner,
    studentId (data (normalizeCoWorkers hook)) = Some owner /\
    owner ∈ first :: rest /\
    owner = (if bool_decide (userId hook ∈ first :: rest)
             then userId hook else first).
Proof.
  intros Hg Hm. unfold normalizeCoWorkers. rewrite Hg, Hm. simpl.
  case_bool_decide; simpl; eexists; split_and!; try done. set_solver.
Qed.

(** X28: when a request that does not grade comes with an empty team, the
    user becomes its only member, and the owner [studentId] of the request
    is left as it came, whoever it names. *)
Theorem normalizeCoWorkers_empty_team hook :
  grading (data hook) = false ->
  teamMembers (data hook) = MemberList [] ->
  teamMembers (data (normalizeCoWorkers hook)) = MemberList [userId hook] /\
  studentId (data (normalizeCoWorkers hook)) = studentId (data hook).
Proof.
  intros Hg Hm. unfold normalizeCoWorkers. by rewrite Hg, Hm.
Qed.

(** X29: on creation, a request that neither grades nor names a team
    leaves the first two hooks with the user as its only team member and as
    its owner; a grade of 0 without comment does not count as grading. *)
Theorem create_coworkers_alone hook :
  truthy_number (grade (data hook)) = false ->
  truthy (gradeComment (data hook)) = false ->
  teamMembers (data hook) = NoMembers ->
  teamMembers (data (create_coworkers hook)) = MemberList [userId hook] /\
  studentId (data (create_coworkers hook)) = Some (userId hook).
Proof.
  intros Hgrade Hcomment Hm.
  unfold create_coworkers, setCoWorkers, normalizeCoWorkers, grading.
  rewrite Hm, Hgrade, Hcomment. simpl. rewrite Hgrade, Hcomment. simpl.
  rewrite bool_decide_eq_true_2 by set_solver. done.
Qed.

(** X30: for a team given as an array, with the homework at hand,
    [maxCoWorkers] hands the request on unchanged exactly when the team has
    at most one member, or the homework takes team submissions and sets no
    limit of at least 1 that the team exceeds. *)
Theorem maxCoWorkers_passes_iff hook members homework :
  truthy (homeworkId (data hook)) = true ->
  teamMembers (data hook) = MemberList members ->
  get_homework (homeworkId (data hook)) = inr homework ->
  (maxCoWorkers get_homework hook = inr hook <->
   (length members <= 1)%nat \/
   (teamSubmissions homework = true /\
    match maxCoWorkers_allowed homework with
    | Some allowed => allowed < 1 \/ Z.of_nat (length members) <= allowed
    | None => True
    end)) /\
  (forall hook', maxCoWorkers get_homework hook = inr hook' -> hook' = hook).
Proof.
  intros Hid Hm Hget. unfold maxCoWorkers.
  rewrite Hid, Hm, Hget. simpl.
  destruct (Z.ltb_spec 1 (Z.of_nat (length members))) as [Hbig|Hsmall];
    destruct (teamSubmissions homework); simpl.
  - destruct (maxCoWorkers_allowed homework) as [allowed|]; simpl.
    + destruct (Z.eqb_spec allowed 0) as [->|Hnz]; simpl.
      { split; [|by intros ? [= <-]]. split; [|done]. intros _. right. lia. }
      destruct (Z.leb_spec 1 allowed); simpl.
      * destruct (Z.ltb_spec allowed (Z.of_nat (length members))); simpl.
        -- split; [|done]. split; [done|]. intros [?|[_ [?|?]]]; lia.
        -- split; [|by intros ? [= <-]]. split; [|done]. intros _. right. lia.
      * split; [|by intros ? [= <-]]. split; [|done]. intros _. right. lia.
    + split; [|by intros ? [= <-]]. split; [|done]. intros _. by right.
  - split; [|done]. split; [done|]. intros [?|[? _]]; [lia|done].
  - destruct (maxCoWorkers_allowed homework) as [allowed|]; simpl.
    + destruct (Z.eqb_spec allowed 0) as [->|Hnz]; simpl.
      { split; [|by intros ? [= <-]]. split; [|done]. intros _. left. lia. }
      destruct (Z.leb_spec 1 allowed); simpl.
      * destruct (Z.ltb_spec allowed (Z.of_nat (length members))); simpl;
          [lia|].
        split; [|by intros ? [= <-]]. split; [|done]. intros _. left. lia.
      * split; [|by intros ? [= <-]]. split; [|done]. intros _. left. lia.
    + split; [|by intros ? [= <-]]. split; [|done]. intros _. left. lia.
  - destruct (maxCoWorkers_allowed homework) as [allowed|]; simpl.
    + split; [|by intros ? [= <-]]. split; [|done]. intros _. left. lia.
    + split; [|by intros ? [= <-]]. split; [|done]. intros _. left. lia.
Qed.

End SubmissionHooks.

(** ** The hook properties at example requests *)

Lemma wopiAuthentication_header_first_witness :
  Wopi.wopiAuthentication (fun params => params)
    (Wopi.request [("authorization", "header-token")]) =
  inr (Wopi.request [("authorization", "header-token")]).
Proof.
  apply (wopiAuthentication_header_first (fun params => params)
           (Wopi.request [("authorization", "header-token")])
           (list_to_map [("authorization", "header-token")]) "header-token");
    [reflexivity|reflexivity|discriminate].
Defined.

Lemma checkLockHeader_passes_iff_witness :
  Wopi.checkLockHeader Wopi.files
    (Wopi.set_wopiAction (Some "UNLOCK")
       (Wopi.request [("x-wopi-lock", "lock-1")])) =
  inr (Wopi.set_wopiAction (Some "UNLOCK")
         (Wopi.request [("x-wopi-lock", "lock-1")])).
Proof.
  apply (proj2 (checkLockHeader_passes_iff Wopi.files
                  (Wopi.set_wopiAction (Some "UNLOCK")
                     (Wopi.request [("x-wopi-lock", "lock-1")]))
                  (list_to_map [("x-wopi-lock", "lock-1")]) eq_refl)).
  right. exists Wopi.locked_file. split; [reflexivity|]. right. reflexivity.
Defined.

Lemma before_edit_passes_witness :
  exists action,
    action <> "" /\
    default ∅ (Wopi.headers
                 (Wopi.request [("x-wopi-override", "LOCK");
                                ("x-wopi-lock", "lock-1")]))
      !! "x-wopi-override" = Some action /\
    Some "LOCK" = Some action.
Proof.
  destruct (before_edit_passes Wopi.files
              (Wopi.request [("x-wopi-override", "LOCK"); ("x-wopi-lock", "lock-1")])
              (Wopi.set_wopiAction (Some "LOCK")
                 (Wopi.request [("x-wopi-override", "LOCK");
                                ("x-wopi-lock", "lock-1")]))
              eq_refl)
    as (action & Hne & Hheader & Haction & _).
  exists action. split; [exact Hne|]. split; [exact Hheader|exact Haction].
Defined.

Lemma normalizeCoWorkers_team_not_empty_witness :
  exists members,
    Submissions.teamMembers
      (Submissions.data (Submissions.normalizeCoWorkers Submissions.solo)) =
      Submissions.MemberList members /\
    members <> [].
Proof.
  destruct (normalizeCoWorkers_team_not_empty Submissions.solo eq_refl)
    as (members & Hm & Hne & _).
  exists members. split; [exact Hm|exact Hne].
Defined.

Lemma normalizeCoWorkers_owner_in_team_witness :
  exists owner,
    Submissions.studentId
      (Submissions.data
         (Submissions.normalizeCoWorkers (Submissions.team_of ["u2"; "u3"]))) =
      Some owner /\
    owner ∈ ["u2"; "u3"] /\
    owner = "u2".
Proof.
  exact (normalizeCoWorkers_owner_in_team (Submissions.team_of ["u2"; "u3"])
           "u2" ["u3"] eq_refl eq_refl).
Defined.

Lemma normalizeCoWorkers_empty_team_witness :
  Submissions.teamMembers
    (Submissions.data
       (Submissions.normalizeCoWorkers
          (Submissions.set_studentId "u9" (Submissions.team_of [])))) =
    Submissions.MemberList ["u1"] /\
  Submissions.studentId
    (Submissions.data
       (Submissions.normalizeCoWorkers
          (Submissions.set_studentId "u9" (Submissions.team_of [])))) =
    Some "u9".
Proof.
  exact (normalizeCoWorkers_empty_team
           (Submissions.set_studentId "u9" (Submissions.team_of []))
           eq_refl eq_refl).
Defined.

Lemma create_coworkers_alone_witness :
  Submissions.teamMembers
    (Submissions.data
       (Submissions.create_coworkers
          {| Submissions.data :=
               {| Submissions.grade := Some 0;
                  Submissions.gradeComment := None;
                  Submissions.teamMembers := Submissions.NoMembers;
                  Submissions.studentId := None;
                  Submissions.homeworkId := Some "hw1" |};
             Submissions.userId := "teacher" |})) =
    Submissions.MemberList ["teacher"].
Proof.
  exact (proj1 (create_coworkers_alone
                  {| Submissions.data :=
                       {| Submissions.grade := Some 0;
                          Submissions.gradeComment := None;
                          Submissions.teamMembers := Submissions.NoMembers;
                          Submissions.studentId := None;
                          Submissions.homeworkId := Some "hw1" |};
                     Submissions.userId := "teacher" |}
                  eq_refl eq_refl eq_refl)).
Defined.

Lemma maxCoWorkers_passes_iff_witness :
  Submissions.maxCoWorkers Submissions.homework_for_three
    (Submissions.team_of ["u1"; "u2"; "u3"]) =
    inr (Submissions.team_of ["u1"; "u2"; "u3"]) /\
  Submissions.maxCoWorkers Submissions.homework_for_three
    (Submissions.team_of ["u1"; "u2"; "u3"; "u4"]) <>
    inr (Submissions.team_of ["u1"; "u2"; "u3"; "u4"]).
Proof.
  split.
  - apply (proj1 (maxCoWorkers_passes_iff Submissions.homework_for_three
                    (Submissions.team_of ["u1"; "u2"; "u3"]) ["u1"; "u2"; "u3"]
                    {| Submissions.teamSubmissions := true;
                       Submissions.maxCoWorkers_allowed := Some 3 |}
                    eq_refl eq_refl eq_refl)).
    right. split; [reflexivity|]. right. simpl. lia.
  - intros Hpass.
    apply (proj1 (maxCoWorkers_passes_iff Submissions.homework_for_three
                    (Submissions.team_of ["u1"; "u2"; "u3"; "u4"])
                    ["u1"; "u2"; "u3"; "u4"]
                    {| Submissions.teamSubmissions := true;
                       Submissions.maxCoWorkers_allowed := Some 3 |}
                    eq_refl eq_refl eq_refl)) in Hpass.
    simpl in Hpass. lia.
Defined.
